(** * ExpenseTracker: a shallow embedding of [main.py]

    The server keeps two SQLite tables, [users] and [expenses], and exposes
    six tools over them.  Every tool opens the database, runs one or two
    statements and commits; a tool is modelled as a function from the
    database state (and its arguments) to an outcome and the next state.

    What the Python run time supplies and the source does not define is
    kept abstract: the PBKDF2 digest and [str.lower] are the fields of
    [Host], the values drawn from [secrets] and the clock are the fields
    of [draws], and the arithmetic of the [amount] column is the class
    [Amount] (the code stores binary64 numbers, instance [float_amount]).

    Where the source leaves the behaviour to SQLite (the order in which
    constraints are checked, the order in which [SUM] adds, the order of
    groups with equal totals, what a [REAL] column does with NaN and with
    the negative zero) the model follows what SQLite does (version 3.40,
    with Python 3.11). *)

From Stdlib Require Import List String Ascii ZArith Bool Lia.
From Stdlib Require Import Permutation Sorted DecimalString.
From Stdlib Require Import PrimFloat SpecFloat FloatOps FloatAxioms.
Import ListNotations.

Set Implicit Arguments.
Set Warnings "-inexact-float".

Local Open Scope string_scope.
Local Open Scope Z_scope.

(** ** Text *)

(** Text values are UTF-8 byte strings, the form in which SQLite stores and
    compares them. *)
Module Text.

(** [c in s] for a one-character [c]. *)
Fixpoint contains (c : ascii) (s : string) : bool :=
  match s with
  | EmptyString => false
  | String a s' => Ascii.eqb a c || contains c s'
  end.

(** [s.split(sep)] for a one-character separator. *)
Fixpoint split (sep : ascii) (s : string) : list string :=
  match s with
  | EmptyString => [EmptyString]
  | String a s' =>
      if Ascii.eqb a sep then EmptyString :: split sep s'
      else match split sep s' with
           | [] => [String a EmptyString]
           | p :: ps => String a p :: ps
           end
  end.

(** [parts[-1]]. *)
Definition last_part (parts : list string) : string :=
  last parts EmptyString.

Definition is_upper (a : ascii) : bool :=
  let n := N_of_ascii a in (N.leb 65 n && N.leb n 90)%bool.

Definition lower_char (a : ascii) : ascii :=
  if is_upper a then ascii_of_N (N_of_ascii a + 32) else a.

(** SQLite's built-in [LOWER()]: the ASCII letters are folded, every other
    byte is left as it is. *)
Fixpoint LOWER (s : string) : string :=
  match s with
  | EmptyString => EmptyString
  | String a s' => String (lower_char a) (LOWER s')
  end.

(** All bytes below 128. *)
Fixpoint is_ascii (s : string) : bool :=
  match s with
  | EmptyString => true
  | String a s' => N.ltb (N_of_ascii a) 128 && is_ascii s'
  end.

(** [str(n)] for an integer. *)
Definition str (n : Z) : string := NilZero.string_of_int (Z.to_int n).

(** [lo <= s <= hi] in the BINARY collation, SQL's
    [s BETWEEN lo AND hi]. *)
Definition between (s lo hi : string) : bool :=
  String.leb lo s && String.leb s hi.

End Text.

(** ** What the run time supplies *)

(** [_hash_password] is PBKDF2-HMAC-SHA256 from [hashlib]; [str_lower] is
    Python's [str.lower], which folds letters of every script. *)
Class Host := {
  _hash_password : string -> string -> string;
  str_lower : string -> string
}.

(** On text made of ASCII characters alone [str.lower] and SQLite's
    [LOWER()] are the same function. *)
Definition lower_agrees_on_ascii (host : Host) : Prop :=
  forall s, Text.is_ascii s = true -> str_lower s = Text.LOWER s.

(** The arithmetic of the [amount] column: Python's [0] and [+], the
    comparison behind [ORDER BY total_amount], the test for NaN (which
    SQLite treats as NULL), and the number a [REAL] column gives back for
    a number written to it. *)
Class Amount (A : Type) := {
  zero : A;
  add : A -> A -> A;
  leb : A -> A -> bool;
  is_nan : A -> bool;
  as_real : A -> A
}.

(** Amounts on which addition is exact and no value is NaN. *)
Class ExactAmount (A : Type) `{Amount A} := {
  add_assoc : forall x y z : A, add x (add y z) = add (add x y) z;
  add_comm : forall x y : A, add x y = add y x;
  add_zero_l : forall x : A, add zero x = x;
  never_nan : forall x : A, is_nan x = false
}.

(** The code's amounts: [REAL] columns and Python floats.  SQLite keeps a
    real number without fraction as an integer, so that the negative zero
    comes back as [0.0]; every other number comes back as it was
    written. *)
#[export] Instance float_amount : Amount float := {|
  zero := 0%float;
  add := PrimFloat.add;
  leb := PrimFloat.leb;
  is_nan := PrimFloat.is_nan;
  as_real := fun x => if PrimFloat.eqb x 0%float then 0%float else x
|}.

#[export] Instance Z_amount : Amount Z := {|
  zero := 0;
  add := Z.add;
  leb := Z.leb;
  is_nan := fun _ => false;
  as_real := fun x => x
|}.

#[export] Instance Z_exact : @ExactAmount Z _ := {|
  add_assoc := Z.add_assoc;
  add_comm := Z.add_comm;
  add_zero_l := Z.add_0_l;
  never_nan := fun _ => eq_refl
|}.

(** The values one call draws from [secrets] and from the clock. *)
Record draws := {
  token_hex8 : string;       (* secrets.token_hex(8) *)
  token_urlsafe32 : string;  (* secrets.token_urlsafe(32) *)
  token_hex16 : string;      (* secrets.token_hex(16) *)
  now_iso : string           (* datetime.now().isoformat() *)
}.

(** ** Tables *)

Module User.
Record t := {
  user_id : string;          (* TEXT PRIMARY KEY *)
  api_key : string;          (* TEXT NOT NULL UNIQUE *)
  email : string;            (* TEXT NOT NULL UNIQUE *)
  name : string;
  password_hash : string;
  salt : string;
  registered_at : string;
  api_key_regen_at : option string
}.
End User.

Module Expense.
Record t (A : Type) := {
  id : Z;                    (* INTEGER PRIMARY KEY AUTOINCREMENT *)
  user_id : string;
  date : string;
  amount : A;                (* REAL NOT NULL *)
  category : string;
  subcategory : string;
  note : string
}.
End Expense.

(** [expenses_seq] is the row of [sqlite_sequence] that AUTOINCREMENT
    keeps for [expenses]: the largest id ever handed out. *)
Record db (A : Type) := {
  users : list User.t;
  expenses : list (Expense.t A);
  expenses_seq : Z
}.

(** The largest rowid, [2^63 - 1]. *)
Definition max_rowid : Z := 9223372036854775807.

(** The tables [init_db] creates on a fresh store. *)
Definition init_db {A} : db A :=
  {| users := []; expenses := []; expenses_seq := 0 |}.

(** ** Results *)

Inductive exn := ValueError (message : string).

Inductive result (T : Type) :=
| Ok (v : T)
| Raise (e : exn).
Arguments Ok {T} v.
Arguments Raise {T} e.

(** A row of [list_expenses]: the columns
    [id, date, amount, category, subcategory, note]. *)
Record expense_dict (A : Type) := {
  d_id : Z;
  d_date : string;
  d_amount : A;
  d_category : string;
  d_subcategory : string;
  d_note : string
}.

(** A row of [summarize]: [category, total_amount, count]. *)
Record summary_dict (A : Type) := {
  s_category : string;
  s_total_amount : A;
  s_count : nat
}.

(** The dictionaries the tools return.  [StatusError m] is
    [{"status": "error", "message": m}]; the other constructors carry the
    fields that vary and leave out the constant ones. *)
Inductive response (A : Type) :=
| StatusError (message : string)
| Registered (api_key user_id name email : string)
| Regenerated (api_key user_id : string)
| Added (id : Z)
| Listing (count : nat) (expenses : list (expense_dict A))
| Summary (total_amount : A) (summary : list (summary_dict A))
| Deleted (message : string).
Arguments StatusError {A} message.
Arguments Registered {A} api_key user_id name email.
Arguments Regenerated {A} api_key user_id.
Arguments Added {A} id.
Arguments Deleted {A} message.

(** A tool either returns a dictionary or lets an exception escape. *)
Inductive outcome (A : Type) :=
| Returned (r : response A)
| Raised (e : exn).
Arguments Raised {A} e.

(** ** Queries *)

(** [ORDER BY]: rows are put in order by insertion; [before x y] says that
    [x] may stand in front of [y]. *)
Fixpoint insert_by {T} (before : T -> T -> bool) (x : T) (l : list T)
  : list T :=
  match l with
  | [] => [x]
  | y :: l' => if before x y then x :: l else y :: insert_by before x l'
  end.

Fixpoint order_by {T} (before : T -> T -> bool) (l : list T) : list T :=
  match l with
  | [] => []
  | x :: l' => insert_by before x (order_by before l')
  end.

(** The distinct values of a column, each at its first occurrence. *)
Fixpoint distinct (l : list string) : list string :=
  match l with
  | [] => []
  | c :: l' =>
      c :: filter (fun c' => negb (String.eqb c' c)) (distinct l')
  end.

Section Tools.

Context {host : Host} {A : Type} {amt : Amount A}.

(** [_authenticate]: the [user_id] of the row holding the key, or raise. *)
Definition _authenticate (d : db A) (api_key : string) : result string :=
  if String.eqb api_key "" then Raise (ValueError "API key is required")
  else
    match find (fun u => String.eqb (User.api_key u) api_key) (users d) with
    | None => Raise (ValueError "Invalid API key")
    | Some u => Ok (User.user_id u)
    end.

(** [INSERT INTO users]: the two UNIQUE columns and the primary key are
    checked by the table, the index on [email] first, then the one on
    [api_key], then the primary key. *)
Definition insert_user (d : db A) (u : User.t) : string + db A :=
  if existsb (fun v => String.eqb (User.email v) (User.email u))
       (users d)
  then inl "UNIQUE constraint failed: users.email"
  else if existsb (fun v => String.eqb (User.api_key v) (User.api_key u))
            (users d)
  then inl "UNIQUE constraint failed: users.api_key"
  else if existsb (fun v => String.eqb (User.user_id v) (User.user_id u))
            (users d)
  then inl "UNIQUE constraint failed: users.user_id"
  else inr {| users := users d ++ [u];
              expenses := expenses d;
              expenses_seq := expenses_seq d |}.

(** The format test of [register_user]. *)
Definition email_format_ok (email : string) : bool :=
  Text.contains "@" email
  && Text.contains "." (Text.last_part (Text.split "@" email)).

(** [WHERE LOWER(email) = LOWER(?)]. *)
Definition same_email (email : string) (u : User.t) : bool :=
  String.eqb (Text.LOWER (User.email u)) (Text.LOWER email).

Definition register_user (d : db A) (r : draws)
  (email name password : string) : outcome A * db A :=
  if negb (email_format_ok email)
  then (Returned (StatusError "Invalid email format."), d)
  else if existsb (same_email email) (users d)
  then (Returned (StatusError
          "This email is already registered. Use regenerate_api_key if you lost your key."), d)
  else
    let user_id := "user_" ++ token_hex8 r in
    let api_key := token_urlsafe32 r in
    let salt := token_hex16 r in
    let pw_hash := _hash_password password salt in
    let now := now_iso r in
    match insert_user d
            {| User.user_id := user_id; User.api_key := api_key;
               User.email := str_lower email; User.name := name;
               User.password_hash := pw_hash; User.salt := salt;
               User.registered_at := now;
               User.api_key_regen_at := None |} with
    | inl e => (Returned (StatusError ("Registration error: " ++ e)), d)
    | inr d' =>
        (Returned (Registered api_key user_id name (str_lower email)), d')
    end.

(** [UPDATE users SET api_key = ?, api_key_regen_at = ? WHERE user_id = ?]. *)
Definition set_api_key (uid key now : string) (u : User.t) : User.t :=
  if String.eqb (User.user_id u) uid
  then {| User.user_id := User.user_id u; User.api_key := key;
          User.email := User.email u; User.name := User.name u;
          User.password_hash := User.password_hash u;
          User.salt := User.salt u;
          User.registered_at := User.registered_at u;
          User.api_key_regen_at := Some now |}
  else u.

Definition update_api_key (d : db A) (uid key now : string)
  : string + db A :=
  if existsb (fun v => negb (String.eqb (User.user_id v) uid)
                       && String.eqb (User.api_key v) key) (users d)
  then inl "UNIQUE constraint failed: users.api_key"
  else inr {| users := map (set_api_key uid key now) (users d);
              expenses := expenses d;
              expenses_seq := expenses_seq d |}.

Definition regenerate_api_key (d : db A) (r : draws)
  (email password : string) : outcome A * db A :=
  match find (same_email email) (users d) with
  | None => (Returned (StatusError "Email not found."), d)
  | Some u =>
      if negb (String.eqb (_hash_password password (User.salt u))
                          (User.password_hash u))
      then (Returned (StatusError "Incorrect password."), d)
      else
        let new_key := token_urlsafe32 r in
        match update_api_key d (User.user_id u) new_key (now_iso r) with
        | inl e => (Returned (StatusError ("Error: " ++ e)), d)
        | inr d' => (Returned (Regenerated new_key (User.user_id u)), d')
        end
  end.

(** [INSERT INTO expenses]: a NaN is bound as NULL and stopped by
    [NOT NULL] before an id is taken; AUTOINCREMENT hands out one more
    than the largest id ever used, and refuses once [max_rowid] has been
    used; the row holds the amount as the [REAL] column keeps it. *)
Definition insert_expense (d : db A) (uid date : string) (amount : A)
  (category subcategory note : string) : string + (Z * db A) :=
  if is_nan amount
  then inl "NOT NULL constraint failed: expenses.amount"
  else if max_rowid <=? expenses_seq d
  then inl "database or disk is full"
  else
    let id := expenses_seq d + 1 in
    inr (id, {| users := users d;
                expenses := expenses d ++
                  [{| Expense.id := id; Expense.user_id := uid;
                      Expense.date := date; Expense.amount := as_real amount;
                      Expense.category := category;
                      Expense.subcategory := subcategory;
                      Expense.note := note |}];
                expenses_seq := id |}).

Definition add_expense (d : db A) (date : string) (amount : A)
  (category api_key subcategory note : string) : outcome A * db A :=
  match _authenticate d api_key with
  | Raise e => (Raised e, d)
  | Ok user_id =>
      match insert_expense d user_id date amount category subcategory note
      with
      | inl e => (Returned (StatusError ("Database error: " ++ e)), d)
      | inr (id, d') => (Returned (Added id), d')
      end
  end.

(** [WHERE user_id = ? AND date BETWEEN ? AND ?]. *)
Definition in_range (uid start_date end_date : string) (x : Expense.t A)
  : bool :=
  String.eqb (Expense.user_id x) uid
  && Text.between (Expense.date x) start_date end_date.

(** [ORDER BY date DESC, id DESC]. *)
Definition date_id_desc (x y : Expense.t A) : bool :=
  String.ltb (Expense.date y) (Expense.date x)
  || (String.eqb (Expense.date x) (Expense.date y)
      && (Expense.id y <=? Expense.id x)).

(** [dict(zip(cols, row))] for the columns the query selects. *)
Definition to_dict (x : Expense.t A) : expense_dict A :=
  {| d_id := Expense.id x; d_date := Expense.date x;
     d_amount := Expense.amount x; d_category := Expense.category x;
     d_subcategory := Expense.subcategory x; d_note := Expense.note x |}.

(** The rows the query of [list_expenses] fetches. *)
Definition select_expenses (d : db A) (uid start_date end_date : string)
  : list (Expense.t A) :=
  order_by date_id_desc
    (filter (in_range uid start_date end_date) (expenses d)).

Definition list_expenses (d : db A) (start_date end_date api_key : string)
  : outcome A * db A :=
  match _authenticate d api_key with
  | Raise e => (Raised e, d)
  | Ok user_id =>
      let expenses :=
        map to_dict (select_expenses d user_id start_date end_date) in
      (Returned (Listing (List.length expenses) expenses), d)
  end.

(** The order of the index [idx_user_date] within one account: by date
    and, within a date, by rowid.  The query of [summarize] scans it. *)
Definition date_id_asc (x y : Expense.t A) : bool :=
  String.ltb (Expense.date x) (Expense.date y)
  || (String.eqb (Expense.date x) (Expense.date y)
      && (Expense.id x <=? Expense.id y)).

(** [SUM(amount)]: the amounts of a group added one after the other to
    [0.0], in the order of the scan; a sum that is NaN (an infinite amount
    met one of the other sign) is returned as NULL, Python's [None].
    (Later versions of SQLite carry a compensation term along; it
    vanishes when addition is exact.) *)
Definition SUM (l : list A) : option A :=
  let s := fold_left add l zero in
  if is_nan s then None else Some s.

(** Python's [sum] over numbers: the items added from the left, starting
    at [0].  (From Python 3.12 on floats are added with a compensation
    term; it vanishes when addition is exact.) *)
Definition builtin_sum (l : list A) : A := fold_left add l zero.

(** Python's [sum] over items that may be [None]: [+] raises a TypeError
    at the first [None].  The accumulator is the int [0] until a number
    has been added to it. *)
Fixpoint sum_items (acc : A) (is_int : bool) (items : list (option A))
  : string + A :=
  match items with
  | [] => inr acc
  | None :: _ =>
      inl ("unsupported operand type(s) for +: '"
           ++ (if is_int then "int" else "float") ++ "' and 'NoneType'")
  | Some x :: items' => sum_items (add acc x) false items'
  end.

(** The [WHERE] clause of [summarize]: the [category] condition is
    appended when the argument is truthy. *)
Definition summary_where (uid start_date end_date : string)
  (category : option string) (x : Expense.t A) : bool :=
  in_range uid start_date end_date x
  && match category with
     | None => true
     | Some c =>
         if String.eqb c "" then true
         else String.eqb (Expense.category x) c
     end.

(** One row of [GROUP BY category]: the members in the order of the
    scan. *)
Definition group_of (rows : list (Expense.t A)) (c : string)
  : summary_dict (option A) :=
  let members :=
    filter (fun x => String.eqb (Expense.category x) c) rows in
  {| s_category := c;
     s_total_amount := SUM (map (@Expense.amount A) members);
     s_count := List.length members |}.

(** Ascending totals, NULL below every number. *)
Definition total_asc (g h : summary_dict (option A)) : bool :=
  match s_total_amount g, s_total_amount h with
  | None, _ => true
  | Some _, None => false
  | Some x, Some y => leb x y
  end.

(** [GROUP BY category]: one row for each category, by ascending
    category. *)
Definition group_by_category (rows : list (Expense.t A))
  : list (summary_dict (option A)) :=
  map (group_of rows)
    (order_by String.leb (distinct (map (@Expense.category A) rows))).

(** [ORDER BY total_amount DESC]: the larger total in front and, of two
    groups with the same total, the one that came later. *)
Definition order_by_total_desc (groups : list (summary_dict (option A)))
  : list (summary_dict (option A)) :=
  rev (order_by total_asc groups).

(** The rows the query of [summarize] fetches: the matching rows are read
    in the order of the index, grouped, and the groups put in order. *)
Definition select_summary (d : db A) (uid start_date end_date : string)
  (category : option string) : list (summary_dict (option A)) :=
  order_by_total_desc
    (group_by_category
       (order_by date_id_asc
          (filter (summary_where uid start_date end_date category)
             (expenses d)))).

(** A fetched row whose total is a number. *)
Definition number_row (g : summary_dict (option A)) : summary_dict A :=
  {| s_category := s_category g;
     s_total_amount :=
       match s_total_amount g with Some x => x | None => zero end;
     s_count := s_count g |}.

(** When [sum] has gone through, every total is a number. *)
Definition summarize (d : db A) (start_date end_date api_key : string)
  (category : option string) : outcome A * db A :=
  match _authenticate d api_key with
  | Raise e => (Raised e, d)
  | Ok user_id =>
      let summary :=
        select_summary d user_id start_date end_date category in
      match sum_items zero true
              (map (@s_total_amount (option A)) summary) with
      | inl e => (Returned (StatusError ("Error: " ++ e)), d)
      | inr total_amount =>
          (Returned (Summary total_amount (map number_row summary)), d)
      end
  end.

(** [WHERE id = ? AND user_id = ?]. *)
Definition owned_by (expense_id : Z) (uid : string) (x : Expense.t A)
  : bool :=
  (Expense.id x =? expense_id) && String.eqb (Expense.user_id x) uid.

(** An [expense_id] outside the 64-bit range cannot be bound to the
    statement; the binding raises inside the [try]. *)
Definition delete_expense (d : db A) (expense_id : Z) (api_key : string)
  : outcome A * db A :=
  match _authenticate d api_key with
  | Raise e => (Raised e, d)
  | Ok user_id =>
      if (expense_id <? - max_rowid - 1) || (max_rowid <? expense_id)
      then (Returned (StatusError
              "Error: Python int too large to convert to SQLite INTEGER"), d)
      else if negb (existsb (owned_by expense_id user_id) (expenses d))
      then (Returned (StatusError "Expense not found or not yours."), d)
      else
        (Returned
           (Deleted ("Expense " ++ Text.str expense_id ++ " deleted.")),
         {| users := users d;
            expenses :=
              filter (fun x => negb (owned_by expense_id user_id x))
                (expenses d);
            expenses_seq := expenses_seq d |})
  end.

(** ** The tool surface *)

Inductive call :=
| Register (r : draws) (email name password : string)
| Regenerate (r : draws) (email password : string)
| AddExpense (date : string) (amount : A)
    (category api_key subcategory note : string)
| ListExpenses (start_date end_date api_key : string)
| Summarize (start_date end_date api_key : string)
    (category : option string)
| DeleteExpense (expense_id : Z) (api_key : string).

Definition invoke (d : db A) (c : call) : outcome A * db A :=
  match c with
  | Register r email name password =>
      register_user d r email name password
  | Regenerate r email password => regenerate_api_key d r email password
  | AddExpense date amount category api_key subcategory note =>
      add_expense d date amount category api_key subcategory note
  | ListExpenses start_date end_date api_key =>
      list_expenses d start_date end_date api_key
  | Summarize start_date end_date api_key category =>
      summarize d start_date end_date api_key category
  | DeleteExpense expense_id api_key => delete_expense d expense_id api_key
  end.

(** [secrets.token_urlsafe(32)] encodes 32 bytes: it is never the empty
    text. *)
Definition drawn_ok (c : call) : Prop :=
  match c with
  | Register r _ _ _ | Regenerate r _ _ => token_urlsafe32 r <> ""
  | _ => True
  end.

(** The states the server can be in: the fresh tables, and whatever a
    call leaves behind. *)
Inductive reachable : db A -> Prop :=
| reach_init : reachable init_db
| reach_invoke d c :
    reachable d -> drawn_ok c -> reachable (snd (invoke d c)).

(** What the tables guarantee in every reachable state. *)
Record consistent (d : db A) : Prop := {
  user_ids_unique : NoDup (map User.user_id (users d));
  api_keys_unique : NoDup (map User.api_key (users d));
  emails_unique : NoDup (map User.email (users d));
  api_keys_nonempty : Forall (fun u => User.api_key u <> "") (users d);
  ids_unique : NoDup (map (@Expense.id A) (expenses d));
  ids_handed_out :
    Forall (fun x => 1 <= Expense.id x <= expenses_seq d) (expenses d);
  seq_bounded : 0 <= expenses_seq d <= max_rowid
}.

End Tools.

(** A session: the calls of one client after the other. *)
Definition run {host : Host} {A : Type} {amt : Amount A}
  (d : db A) (calls : list (@call A)) : db A :=
  fold_left (fun d c => snd (invoke d c)) calls d.

(** ** Vocabulary of the specification *)

(** The shape of an address: a non-empty local part, an [@], and a domain
    (the text after the [@], which holds no further [@]) with a dot. *)
Definition address_shape (email : string) : Prop :=
  exists local domain : string,
    email = local ++ "@" ++ domain
    /\ local <> ""
    /\ Text.contains "@" domain = false
    /\ Text.contains "." domain = true.

(** The part of that shape the format test looks at: an [@] followed by
    a domain with a dot, whatever stands in front of the [@]. *)
Definition at_and_dotted_domain (email : string) : Prop :=
  exists local domain : string,
    email = local ++ "@" ++ domain
    /\ Text.contains "@" domain = false
    /\ Text.contains "." domain = true.

(** The [api_key] argument of the tools that go through the gate. *)
Definition key_of {A} (c : @call A) : option string :=
  match c with
  | Register _ _ _ _ | Regenerate _ _ _ => None
  | AddExpense _ _ _ api_key _ _ | ListExpenses _ _ api_key
  | Summarize _ _ api_key _ | DeleteExpense _ api_key => Some api_key
  end.

(** [rows] is the listing of the expenses stored for an account in a
    range of dates: one dictionary for each of them, with its columns,
    later dates first and, within a date, larger ids first. *)
Definition listing_of {A} (d : db A) (uid start_date end_date : string)
  (rows : list (expense_dict A)) : Prop :=
  exists stored : list (Expense.t A),
    rows = map (fun x =>
                  {| d_id := Expense.id x; d_date := Expense.date x;
                     d_amount := Expense.amount x;
                     d_category := Expense.category x;
                     d_subcategory := Expense.subcategory x;
                     d_note := Expense.note x |}) stored
    /\ Permutation stored
         (filter (fun x => String.eqb (Expense.user_id x) uid
                           && (String.leb start_date (Expense.date x)
                               && String.leb (Expense.date x) end_date))
            (expenses d))
    /\ StronglySorted
         (fun x y =>
            String.ltb (Expense.date y) (Expense.date x) = true
            \/ (Expense.date x = Expense.date y
                /\ Expense.id y < Expense.id x)) stored.

(** The rows of a listing that carry a category, and their amounts added
    to [0] from the oldest row to the newest (a listing has the newest
    row first). *)
Definition category_rows {A} (rows : list (expense_dict A)) (c : string)
  : list (expense_dict A) :=
  filter (fun r => String.eqb (d_category r) c) rows.

Definition category_sum {A} {amt : Amount A} (rows : list (expense_dict A))
  (c : string) : A :=
  fold_left add (map (@d_amount A) (rev (category_rows rows c))) zero.

(** The answer of [summarize] when [sum] meets a [None]: the message of
    the TypeError names the type of what had been added up before. *)
Definition sum_type_error {A} (r : response A) : Prop :=
  r = StatusError
        "Error: unsupported operand type(s) for +: 'int' and 'NoneType'"
  \/ r = StatusError
           "Error: unsupported operand type(s) for +: 'float' and 'NoneType'".

(** Some category of the listing has a sum that is NaN. *)
Definition some_sum_is_nan {A} {amt : Amount A}
  (rows : list (expense_dict A)) : bool :=
  existsb (fun c => is_nan (category_sum rows c))
    (map (@d_category A) rows).

(** ** Sample sessions *)

(** [str.lower] on ASCII and on the capital letters of the Latin-1
    supplement (U+00C0 to U+00DE without U+00D7, in UTF-8 the byte 195
    followed by 128 to 158 without 151), enough to run the samples. *)
Fixpoint lower_latin1 (s : string) : string :=
  match s with
  | EmptyString => EmptyString
  | String a t =>
      match t with
      | String b u =>
          let n := N_of_ascii b in
          if (N.eqb (N_of_ascii a) 195 && N.leb 128 n && N.leb n 158
              && negb (N.eqb n 151))%bool
          then String a (String (ascii_of_N (n + 32)) (lower_latin1 u))
          else String (Text.lower_char a) (lower_latin1 t)
      | EmptyString => String (Text.lower_char a) EmptyString
      end
  end.

(** A stand-in digest and [lower_latin1] for [str.lower]. *)
Definition sample_host : Host := {|
  _hash_password := fun password salt => salt ++ "$" ++ password;
  str_lower := lower_latin1
|}.

Definition alice_draws : draws := {|
  token_hex8 := "a11ce00000000001";
  token_urlsafe32 := "alice-key";
  token_hex16 := "5a17a";
  now_iso := "2024-01-01T09:00:00"
|}.

Definition bob_draws : draws := {|
  token_hex8 := "b0b0000000000002";
  token_urlsafe32 := "bob-key";
  token_hex16 := "5a17b";
  now_iso := "2024-01-02T09:00:00"
|}.

Definition rotation_draws : draws := {|
  token_hex8 := "";
  token_urlsafe32 := "alice-key-2";
  token_hex16 := "";
  now_iso := "2024-02-01T09:00:00"
|}.

(** Alice and Bob register; Alice books two expenses and Bob one, with
    amounts in cents. *)
Definition sample_calls : list (@call Z) := [
  Register alice_draws "Alice@Example.com" "Alice" "wonderland";
  Register bob_draws "bob@example.com" "Bob" "builder";
  AddExpense "2024-01-05" 4550 "Food & Dining" "alice-key" "" "";
  AddExpense "2024-01-10" 1200 "Transportation" "alice-key" "" "";
  AddExpense "2024-01-07" 990 "Shopping" "bob-key" "" ""
].

Definition sample_db : db Z :=
  Eval vm_compute in @run sample_host Z _ init_db sample_calls.

(** Alice's row in [sample_db]. *)
Definition alice : User.t := {|
  User.user_id := "user_a11ce00000000001";
  User.api_key := "alice-key";
  User.email := "alice@example.com";
  User.name := "Alice";
  User.password_hash := "5a17a$wonderland";
  User.salt := "5a17a";
  User.registered_at := "2024-01-01T09:00:00";
  User.api_key_regen_at := None
|}.

(** Alice's first expense in [sample_db]. *)
Definition lunch : Expense.t Z := {|
  Expense.id := 1;
  Expense.user_id := "user_a11ce00000000001";
  Expense.date := "2024-01-05";
  Expense.amount := 4550;
  Expense.category := "Food & Dining";
  Expense.subcategory := "";
  Expense.note := ""
|}.

(** Alice books three binary64 amounts, the largest on the latest date
    and the two smaller ones in one category. *)
Definition float_calls : list (@call float) := [
  Register alice_draws "alice@example.com" "Alice" "wonderland";
  AddExpense "2024-01-03" 0.3%float "Shopping" "alice-key" "" "";
  AddExpense "2024-01-02" 0.2%float "Food & Dining" "alice-key" "" "";
  AddExpense "2024-01-01" 0.1%float "Food & Dining" "alice-key" "" ""
].

Definition float_db : db float :=
  Eval vm_compute in @run sample_host float _ init_db float_calls.

(** Alice books two expenses without a category and one with. *)
Definition blank_calls : list (@call float) := [
  Register alice_draws "alice@example.com" "Alice" "wonderland";
  AddExpense "2024-03-01" 12.5%float "" "alice-key" "" "";
  AddExpense "2024-03-02" 7.25%float "Travel" "alice-key" "" "";
  AddExpense "2024-03-03" 1%float "" "alice-key" "" "stamps"
].

Definition blank_db : db float :=
  Eval vm_compute in @run sample_host float _ init_db blank_calls.

(** Alice books an infinite amount and its opposite in one category, and
    an ordinary amount in another. *)
Definition infinite_calls : list (@call float) := [
  Register alice_draws "alice@example.com" "Alice" "wonderland";
  AddExpense "2024-04-01" infinity "Other" "alice-key" "" "";
  AddExpense "2024-04-02" neg_infinity "Other" "alice-key" "" "";
  AddExpense "2024-04-03" 5%float "Travel" "alice-key" "" ""
].

Definition infinite_db : db float :=
  Eval vm_compute in @run sample_host float _ init_db infinite_calls.

(** Alice books the same amount in two categories and less in a third. *)
Definition tie_calls : list (@call float) := [
  Register alice_draws "alice@example.com" "Alice" "wonderland";
  AddExpense "2024-05-01" 2.5%float "Food & Dining" "alice-key" "" "";
  AddExpense "2024-05-02" 2.5%float "Travel" "alice-key" "" "";
  AddExpense "2024-05-03" 1%float "Other" "alice-key" "" ""
].

Definition tie_db : db float :=
  Eval vm_compute in @run sample_host float _ init_db tie_calls.

(** The tables after Alice has registered and before she books. *)
Definition float_start : db float :=
  Eval vm_compute in
    snd (@register_user sample_host float init_db alice_draws
           "alice@example.com" "Alice" "wonderland").

(** An address whose local part is the capital letter U+00C9 (E with
    acute accent, bytes 195 137), and the same with the small letter
    U+00E9 (bytes 195 169). *)
Definition capital_email : string :=
  String "195" (String "137" "@x.y").

Definition small_email : string :=
  String "195" (String "169" "@x.y").

(** The tables after [capital_email] has been registered once. *)
Definition capital_db : db Z :=
  Eval vm_compute in
    snd (@register_user sample_host Z init_db alice_draws
           capital_email "Alice" "wonderland").

Definition carol_draws : draws := {|
  token_hex8 := "ca401000000000003";
  token_urlsafe32 := "carol-key";
  token_hex16 := "5a17c";
  now_iso := "2024-01-03T09:00:00"
|}.

(** Bob books a second expense. *)
Definition bob_books : @call Z :=
  AddExpense "2024-02-01" 500 "Other" "bob-key" "" "late fee".

(** * Facts *)

Unset Implicit Arguments.

(** ** The BINARY collation *)

Lemma ascii_compare_refl (a : ascii) : Ascii.compare a a = Eq.
Proof. unfold Ascii.compare. apply N.compare_refl. Qed.

Lemma string_compare_refl (s : string) : String.compare s s = Eq.
Proof.
  induction s as [|a s IH]; simpl; [reflexivity|].
  now rewrite ascii_compare_refl.
Qed.

Lemma string_compare_not_gt_trans (s t u : string) :
  String.compare s t <> Gt -> String.compare t u <> Gt ->
  String.compare s u <> Gt.
Proof.
  revert t u.
  induction s as [|a s IH]; intros [|b t] [|c u]; simpl; try congruence.
  unfold Ascii.compare.
  destruct (N.compare_spec (N_of_ascii a) (N_of_ascii b)) as [E1|L1|G1];
    destruct (N.compare_spec (N_of_ascii b) (N_of_ascii c)) as [E2|L2|G2];
    try congruence; intros H1 H2.
  - rewrite E1, E2, N.compare_refl. now apply IH with t.
  - rewrite E1. apply N.compare_lt_iff in L2. now rewrite L2.
  - rewrite <- E2. apply N.compare_lt_iff in L1. now rewrite L1.
  - assert (L : (N_of_ascii a < N_of_ascii c)%N) by lia.
    apply N.compare_lt_iff in L. now rewrite L.
Qed.

Lemma string_leb_trans (s t u : string) :
  String.leb s t = true -> String.leb t u = true -> String.leb s u = true.
Proof.
  unfold String.leb. intros H1 H2.
  assert (N : String.compare s u <> Gt).
  { apply string_compare_not_gt_trans with t.
    - destruct (String.compare s t); congruence.
    - destruct (String.compare t u); congruence. }
  destruct (String.compare s u); congruence.
Qed.

Lemma string_ltb_not_leb (s t : string) :
  String.ltb s t = true -> String.leb t s = false.
Proof.
  unfold String.ltb, String.leb. rewrite (String.compare_antisym t s).
  destruct (String.compare s t); simpl; congruence.
Qed.

(** An empty range: nothing lies between [lo] and [hi] when [hi < lo]. *)
Lemma between_empty (s lo hi : string) :
  String.ltb hi lo = true -> Text.between s lo hi = false.
Proof.
  intros H. unfold Text.between.
  destruct (String.leb lo s) eqn:E1; [|reflexivity].
  destruct (String.leb s hi) eqn:E2; [|reflexivity].
  pose proof (string_leb_trans _ _ _ E1 E2) as T.
  apply string_ltb_not_leb in H. congruence.
Qed.

Lemma string_ltb_trans (s t u : string) :
  String.ltb s t = true -> String.ltb t u = true -> String.ltb s u = true.
Proof.
  unfold String.ltb. intros H1 H2.
  destruct (String.compare s t) eqn:E1; try discriminate.
  destruct (String.compare t u) eqn:E2; try discriminate.
  assert (N : String.compare s u <> Gt)
    by (apply string_compare_not_gt_trans with t; congruence).
  destruct (String.compare s u) eqn:E3; try congruence.
  apply String.compare_eq_iff in E3. subst u.
  rewrite String.compare_antisym, E1 in E2. discriminate.
Qed.

Lemma string_ltb_total (s t : string) :
  String.ltb s t = false -> s <> t -> String.ltb t s = true.
Proof.
  unfold String.ltb. rewrite (String.compare_antisym t s).
  destruct (String.compare s t) eqn:E; simpl; try congruence.
  apply String.compare_eq_iff in E. congruence.
Qed.

Lemma string_ltb_irrefl (s : string) : String.ltb s s = false.
Proof. unfold String.ltb. now rewrite string_compare_refl. Qed.

Lemma string_leb_ltb (s t : string) :
  String.leb s t = true -> s <> t -> String.ltb s t = true.
Proof.
  unfold String.leb, String.ltb.
  destruct (String.compare s t) eqn:E; try congruence.
  apply String.compare_eq_iff in E. congruence.
Qed.

Lemma string_leb_false (s t : string) :
  String.leb s t = false -> String.leb t s = true.
Proof. destruct (String.leb_total s t); congruence. Qed.

(** ** [ORDER BY] *)

Section OrderBy.

Variable T : Type.
Variable before : T -> T -> bool.

Lemma insert_by_perm (x : T) (l : list T) :
  Permutation (insert_by before x l) (x :: l).
Proof.
  induction l as [|y l IH]; simpl; [reflexivity|].
  destruct (before x y); [reflexivity|].
  rewrite IH. apply perm_swap.
Qed.

Lemma order_by_perm (l : list T) : Permutation (order_by before l) l.
Proof.
  induction l as [|x l IH]; simpl; [reflexivity|].
  rewrite insert_by_perm. now apply perm_skip.
Qed.

(** The comparison need only be total and transitive on the rows it
    meets, those with [P]. *)
Variable P : T -> Prop.
Hypothesis before_total :
  forall x y, P x -> P y -> before x y = false -> before y x = true.
Hypothesis before_trans :
  forall x y z, P x -> P y -> P z ->
    before x y = true -> before y z = true -> before x z = true.

Lemma insert_by_sorted_on (x : T) (l : list T) :
  P x -> Forall P l ->
  StronglySorted (fun a b => before a b = true) l ->
  StronglySorted (fun a b => before a b = true) (insert_by before x l).
Proof.
  intros Px Pl S. induction S as [|y l S IH F]; simpl.
  - repeat constructor.
  - inversion Pl as [|? ? Py Pl']; subst.
    destruct (before x y) eqn:E.
    + constructor; [now constructor|].
      constructor; [exact E|].
      rewrite Forall_forall in *. intros z Hz.
      apply before_trans with y; auto.
    + constructor; [now apply IH|].
      apply (Permutation_Forall (Permutation_sym (insert_by_perm x l))).
      constructor; [now apply before_total | exact F].
Qed.

Lemma order_by_sorted_on (l : list T) :
  Forall P l ->
  StronglySorted (fun a b => before a b = true) (order_by before l).
Proof.
  induction l as [|x l IH]; intros F; simpl; [constructor|].
  inversion F as [|? ? Px Pl]; subst.
  apply insert_by_sorted_on; [exact Px| |now apply IH].
  now apply (Permutation_Forall (Permutation_sym (order_by_perm l))).
Qed.

(** The insertion is stable: of two rows that compare as equal, the one
    that came first stays in front.  [S] is the order in which the rows
    came. *)
Variable S : T -> T -> Prop.

Lemma insert_by_stable_on (x : T) (l : list T) :
  P x -> Forall P l -> Forall (S x) l ->
  StronglySorted
    (fun a b => before a b = true /\ (before b a = true -> S a b)) l ->
  StronglySorted
    (fun a b => before a b = true /\ (before b a = true -> S a b))
    (insert_by before x l).
Proof.
  intros Px Pl Sx H. induction H as [|y l H IH F]; simpl.
  - repeat constructor.
  - inversion Pl as [|? ? Py Pl']; subst.
    inversion Sx as [|? ? Sxy Sxl]; subst.
    destruct (before x y) eqn:E.
    + constructor; [now constructor|].
      constructor; [split; [exact E|intros _; exact Sxy]|].
      rewrite Forall_forall in *. intros z Hz. split.
      * apply before_trans with y; auto. now apply F.
      * intros _. now apply Sxl.
    + constructor; [now apply IH|].
      apply (Permutation_Forall (Permutation_sym (insert_by_perm x l))).
      constructor; [|exact F].
      split; [now apply before_total|]. intros B. congruence.
Qed.

Lemma order_by_stable_on (l : list T) :
  Forall P l -> StronglySorted S l ->
  StronglySorted
    (fun a b => before a b = true /\ (before b a = true -> S a b))
    (order_by before l).
Proof.
  induction l as [|x l IH]; intros F H; simpl; [constructor|].
  inversion F as [|? ? Px Pl]; subst.
  inversion H as [|? ? Hl Hx]; subst.
  apply insert_by_stable_on; [exact Px| | |now apply IH].
  - now apply (Permutation_Forall (Permutation_sym (order_by_perm l))).
  - now apply (Permutation_Forall (Permutation_sym (order_by_perm l))).
Qed.

End OrderBy.

Lemma order_by_sorted (T : Type) (before : T -> T -> bool) :
  (forall x y, before x y = false -> before y x = true) ->
  (forall x y z,
     before x y = true -> before y z = true -> before x z = true) ->
  forall l : list T,
    StronglySorted (fun a b => before a b = true) (order_by before l).
Proof.
  intros total trans l.
  apply order_by_sorted_on with (P := fun _ => True).
  - intros x y _ _. apply total.
  - intros x y z _ _ _. apply trans.
  - apply Forall_forall. trivial.
Qed.

Lemma StronglySorted_map {T U} (f : T -> U) (R : U -> U -> Prop)
  (l : list T) :
  StronglySorted (fun a b => R (f a) (f b)) l ->
  StronglySorted R (map f l).
Proof.
  induction 1 as [|x l S IH F]; simpl; constructor; [exact IH|].
  apply Forall_map. exact F.
Qed.

(** Rows with distinct keys that are in order are in strict order. *)
Lemma StronglySorted_strict {T K} (key : T -> K) (R : T -> T -> Prop)
  (l : list T) :
  StronglySorted R l -> NoDup (map key l) ->
  StronglySorted (fun a b => R a b /\ key a <> key b) l.
Proof.
  induction 1 as [|x l S IH F]; simpl; intros N; [constructor|].
  inversion N as [|k ks Hk N']; subst.
  constructor; [now apply IH|].
  rewrite Forall_forall in *. intros y Hy. split; [now apply F|].
  intros E. apply Hk. rewrite E. now apply in_map.
Qed.

Lemma StronglySorted_impl {T} (R S : T -> T -> Prop) (l : list T) :
  (forall x y, R x y -> S x y) -> StronglySorted R l -> StronglySorted S l.
Proof.
  intros RS. induction 1 as [|x l H IH F]; constructor; [exact IH|].
  eapply Forall_impl; [|exact F]. intros y. apply RS.
Qed.

Lemma StronglySorted_impl_in {T} (R S : T -> T -> Prop) (l : list T) :
  (forall x y, In x l -> In y l -> R x y -> S x y) ->
  StronglySorted R l -> StronglySorted S l.
Proof.
  intros RS H. induction H as [|x l H IH F]; constructor.
  - apply IH. intros a b Ia Ib. apply RS; now right.
  - rewrite Forall_forall in *. intros y Iy.
    apply RS; [now left|now right|now apply F].
Qed.

Lemma StronglySorted_app {T} (R : T -> T -> Prop) (l l' : list T) :
  StronglySorted R l -> StronglySorted R l' ->
  (forall x y, In x l -> In y l' -> R x y) ->
  StronglySorted R (l ++ l').
Proof.
  induction 1 as [|x l S IH F]; simpl; intros S' H; [exact S'|].
  constructor.
  - apply IH; [exact S'|]. intros a b Ia Ib. apply H; [now right|exact Ib].
  - apply Forall_app. split; [exact F|].
    apply Forall_forall. intros y Iy. apply H; [now left|exact Iy].
Qed.

(** A list in order, read backwards, is in the opposite order. *)
Lemma StronglySorted_rev {T} (R : T -> T -> Prop) (l : list T) :
  StronglySorted R l -> StronglySorted (fun a b => R b a) (rev l).
Proof.
  induction 1 as [|x l S IH F]; simpl; [constructor|].
  apply StronglySorted_app; [exact IH|repeat constructor|].
  intros a b Ia [<-|[]]. apply in_rev in Ia.
  rewrite Forall_forall in F. now apply F.
Qed.

Lemma StronglySorted_filter {T} (R : T -> T -> Prop) (p : T -> bool)
  (l : list T) :
  StronglySorted R l -> StronglySorted R (filter p l).
Proof.
  induction 1 as [|x l S IH F]; simpl; [constructor|].
  destruct (p x); [|exact IH]. constructor; [exact IH|].
  apply Forall_forall. intros y Iy. apply filter_In in Iy.
  rewrite Forall_forall in F. now apply F.
Qed.

(** Rows can be put in a strict order in one way only. *)
Lemma StronglySorted_unique {T} (R : T -> T -> Prop) (l l' : list T) :
  (forall x y, R x y -> R y x -> False) ->
  Permutation l l' -> StronglySorted R l -> StronglySorted R l' -> l = l'.
Proof.
  intros asym. revert l'. induction l as [|x l IH]; intros l' P S S'.
  - apply Permutation_nil in P. now subst.
  - destruct l' as [|y l'].
    { apply Permutation_sym, Permutation_nil in P. discriminate. }
    inversion S as [|? ? Sl Fl]; inversion S' as [|? ? Sl' Fl']; subst.
    rewrite Forall_forall in Fl, Fl'.
    assert (E : x = y).
    { assert (Ix : In x (y :: l'))
        by (apply (Permutation_in _ P); now left).
      assert (Iy : In y (x :: l))
        by (apply (Permutation_in _ (Permutation_sym P)); now left).
      destruct Ix as [E|Ix]; [now symmetry|].
      destruct Iy as [E|Iy]; [exact E|].
      exfalso. apply (asym x y); [now apply Fl | now apply Fl']. }
    subst y. f_equal. apply IH; [|exact Sl|exact Sl'].
    now apply Permutation_cons_inv with x.
Qed.

(** ** Columns and constraints *)

Lemma existsb_eqb_false {T} (f : T -> string) (k : string) (l : list T) :
  existsb (fun v => String.eqb (f v) k) l = false -> ~ In k (map f l).
Proof.
  induction l as [|x l IH]; simpl; [tauto|].
  intros H [E|I].
  - rewrite E, String.eqb_refl in H. discriminate.
  - apply orb_false_elim in H. now apply IH.
Qed.

Lemma existsb_false_In {T} (p : T -> bool) (l : list T) (v : T) :
  existsb p l = false -> In v l -> p v = false.
Proof.
  intros H I. destruct (p v) eqn:E; [|reflexivity].
  rewrite <- H. symmetry. apply existsb_exists. now exists v.
Qed.

Lemma NoDup_snoc {T} (l : list T) (x : T) :
  NoDup l -> ~ In x l -> NoDup (l ++ [x]).
Proof.
  intros N I.
  apply (Permutation_NoDup (l := x :: l)).
  - apply Permutation_cons_append.
  - now constructor.
Qed.

Lemma NoDup_map_filter {T U} (f : T -> U) (p : T -> bool) (l : list T) :
  NoDup (map f l) -> NoDup (map f (filter p l)).
Proof.
  induction l as [|x l IH]; simpl; [auto|].
  intros N. inversion N as [|k ks Hk N']; subst.
  destruct (p x); simpl; [|now apply IH].
  constructor; [|now apply IH].
  intros I. apply Hk. apply in_map_iff in I. destruct I as (y & E & I).
  apply filter_In in I. apply in_map_iff. exists y. tauto.
Qed.

(** [summarize] reads: it returns a dictionary when the key
    authenticates, and it leaves the tables as they were. *)
Lemma summarize_snd {A : Type} {amt : Amount A} (d : db A)
  (start_date end_date api_key : string) (category : option string) :
  snd (summarize d start_date end_date api_key category) = d.
Proof.
  unfold summarize. destruct (_authenticate d api_key); [|reflexivity].
  now destruct (sum_items _ _ _).
Qed.

Lemma summarize_Returned {A : Type} {amt : Amount A} (d : db A)
  (start_date end_date api_key uid : string) (category : option string) :
  _authenticate d api_key = Ok uid ->
  exists r,
    summarize d start_date end_date api_key category = (Returned r, d).
Proof.
  intros G. unfold summarize. rewrite G.
  destruct (sum_items _ _ _); eexists; reflexivity.
Qed.

Section Consistency.

Context {host : Host} {A : Type} {amt : Amount A}.

Lemma init_db_consistent : consistent (@init_db A).
Proof.
  split; simpl; try constructor; unfold max_rowid; lia.
Qed.

Lemma set_api_key_user_id (uid key now : string) (u : User.t) :
  User.user_id (set_api_key uid key now u) = User.user_id u.
Proof. unfold set_api_key. now destruct (String.eqb (User.user_id u) uid). Qed.

Lemma set_api_key_email (uid key now : string) (u : User.t) :
  User.email (set_api_key uid key now u) = User.email u.
Proof. unfold set_api_key. now destruct (String.eqb (User.user_id u) uid). Qed.

Lemma set_api_key_key (uid key now : string) (u : User.t) :
  User.api_key (set_api_key uid key now u)
  = if String.eqb (User.user_id u) uid then key else User.api_key u.
Proof. unfold set_api_key. now destruct (String.eqb (User.user_id u) uid). Qed.

(** A row whose [user_id] is not [uid] is left alone by the update. *)
Lemma set_api_key_other (uid key now : string) (l : list User.t) :
  ~ In uid (map User.user_id l) -> map (set_api_key uid key now) l = l.
Proof.
  induction l as [|u l IH]; simpl; [reflexivity|].
  intros N. unfold set_api_key at 1.
  destruct (String.eqb_spec (User.user_id u) uid) as [E|_]; [tauto|].
  f_equal. apply IH. tauto.
Qed.

(** The update keeps [api_key] unique when no other row holds the key. *)
Lemma set_api_key_unique (uid key now : string) (l : list User.t) :
  NoDup (map User.user_id l) ->
  NoDup (map User.api_key l) ->
  existsb (fun v => negb (String.eqb (User.user_id v) uid)
                    && String.eqb (User.api_key v) key) l = false ->
  NoDup (map User.api_key (map (set_api_key uid key now) l)).
Proof.
  induction l as [|u l IH]; simpl; [constructor|].
  intros NU NK EX.
  inversion NU as [|? ? HU NU']; inversion NK as [|? ? HK NK']; subst.
  apply orb_false_elim in EX. destruct EX as [EXu EXl].
  assert (others : forall v, In v l -> User.user_id v <> uid ->
                             User.api_key v <> key).
  { intros v Iv Nv Ek. apply (existsb_false_In _ _ v) in EXl; [|exact Iv].
    simpl in EXl. apply String.eqb_neq in Nv.
    rewrite Nv, Ek, String.eqb_refl in EXl. discriminate. }
  rewrite set_api_key_key.
  destruct (String.eqb_spec (User.user_id u) uid) as [E|NE].
  - subst uid. rewrite set_api_key_other by exact HU.
    constructor; [|exact NK'].
    intros I. apply in_map_iff in I. destruct I as (v & Ek & Iv).
    apply (others v Iv); [|exact Ek].
    intros Ev. apply HU. rewrite <- Ev. now apply in_map.
  - constructor; [|now apply IH].
    rewrite map_map. intros I. apply in_map_iff in I.
    destruct I as (v & Ek & Iv). rewrite set_api_key_key in Ek.
    destruct (String.eqb_spec (User.user_id v) uid) as [Ev|Nv].
    + rewrite <- Ek, String.eqb_refl in EXu. discriminate.
    + apply HK. rewrite <- Ek. now apply in_map.
Qed.

Lemma insert_user_consistent (d d' : db A) (u : User.t) :
  consistent d -> User.api_key u <> "" -> insert_user d u = inr d' ->
  consistent d'.
Proof.
  intros [NU NK NE KE NI IH SB] Hk. unfold insert_user.
  destruct (existsb _ (users d)) eqn:E1; [discriminate|].
  destruct (existsb _ (users d)) eqn:E2 in |- *; [discriminate|].
  destruct (existsb _ (users d)) eqn:E3 in |- *; [discriminate|].
  intros H. injection H as <-.
  split; simpl; auto; rewrite ?map_app; simpl.
  - apply NoDup_snoc; [exact NU | now apply existsb_eqb_false].
  - apply NoDup_snoc; [exact NK | now apply existsb_eqb_false].
  - apply NoDup_snoc; [exact NE | now apply existsb_eqb_false].
  - apply Forall_app. split; [exact KE | now constructor].
Qed.

Lemma update_api_key_consistent (d d' : db A) (uid key now : string) :
  consistent d -> key <> "" -> update_api_key d uid key now = inr d' ->
  consistent d'.
Proof.
  intros [NU NK NE KE NI IH SB] Hk. unfold update_api_key.
  destruct (existsb _ (users d)) eqn:EX; [discriminate|].
  intros H. injection H as <-.
  split; simpl; auto.
  - rewrite map_map.
    now rewrite (map_ext _ _ (set_api_key_user_id uid key now)).
  - now apply set_api_key_unique.
  - rewrite map_map.
    now rewrite (map_ext _ _ (set_api_key_email uid key now)).
  - apply Forall_map. eapply Forall_impl; [|exact KE].
    intros u Hu. rewrite set_api_key_key.
    now destruct (String.eqb (User.user_id u) uid).
Qed.

Lemma insert_expense_consistent (d d' : db A) (uid date : string)
  (amount : A) (category subcategory note : string) (id : Z) :
  consistent d ->
  insert_expense d uid date amount category subcategory note
    = inr (id, d') ->
  consistent d'.
Proof.
  intros [NU NK NE KE NI IH SB]. unfold insert_expense.
  destruct (is_nan amount); [discriminate|].
  destruct (Z.leb_spec max_rowid (expenses_seq d)) as [_|L]; [discriminate|].
  intros H. injection H as <- <-.
  split; simpl; auto; rewrite ?map_app; simpl.
  - apply NoDup_snoc; [exact NI|].
    intros I. apply in_map_iff in I. destruct I as (x & E & I).
    rewrite Forall_forall in IH. specialize (IH x I). lia.
  - apply Forall_app. split.
    + eapply Forall_impl; [|exact IH]. simpl. intros; lia.
    + constructor; [simpl; lia | constructor].
  - lia.
Qed.

Lemma delete_expense_consistent (d : db A) (expense_id : Z)
  (api_key : string) :
  consistent d -> consistent (snd (delete_expense d expense_id api_key)).
Proof.
  intros C. unfold delete_expense.
  destruct (_authenticate d api_key) as [uid|e]; [|exact C].
  destruct (_ || _); [exact C|].
  destruct (negb _); [exact C|].
  destruct C as [NU NK NE KE NI IH SB].
  split; simpl; auto.
  - now apply NoDup_map_filter.
  - apply Forall_forall. intros x I. apply filter_In in I.
    rewrite Forall_forall in IH. now apply IH.
Qed.

Lemma invoke_consistent (d : db A) (c : call) :
  consistent d -> drawn_ok c -> consistent (snd (invoke d c)).
Proof.
  intros C OK. destruct c; simpl in *.
  - unfold register_user.
    destruct (negb _); [exact C|].
    destruct (existsb _ _); [exact C|].
    destruct (insert_user _ _) as [e|d'] eqn:I; [exact C|].
    simpl. eapply insert_user_consistent; [exact C| |exact I]. exact OK.
  - unfold regenerate_api_key.
    destruct (find _ _) as [u|]; [|exact C].
    destruct (negb _); [exact C|].
    destruct (update_api_key _ _ _ _) as [e|d'] eqn:U; [exact C|].
    simpl. eapply update_api_key_consistent; [exact C| |exact U]. exact OK.
  - unfold add_expense.
    destruct (_authenticate d api_key) as [uid|e]; [|exact C].
    destruct (insert_expense _ _ _ _ _ _ _) as [e|[id d']] eqn:I; [exact C|].
    simpl. eapply insert_expense_consistent; [exact C|exact I].
  - unfold list_expenses.
    now destruct (_authenticate d api_key).
  - now rewrite summarize_snd.
  - now apply delete_expense_consistent.
Qed.

(** Every reachable state satisfies the constraints of the two tables. *)
Lemma reachable_consistent (d : db A) : reachable d -> consistent d.
Proof.
  induction 1 as [|d c R IH OK].
  - apply init_db_consistent.
  - now apply invoke_consistent.
Qed.

End Consistency.

(** ** Sessions *)

Lemma run_reachable {host : Host} {A : Type} {amt : Amount A}
  (calls : list (@call A)) (d : db A) :
  reachable d -> Forall drawn_ok calls -> reachable (run d calls).
Proof.
  revert d. induction calls as [|c calls IH]; intros d R F; simpl.
  - exact R.
  - inversion F; subst. apply IH; [|assumption].
    now apply reach_invoke.
Qed.

Lemma sample_db_reachable : reachable (host := sample_host) sample_db.
Proof.
  change sample_db with (run (host := sample_host) init_db sample_calls).
  apply run_reachable; [apply reach_init|].
  repeat constructor; simpl; discriminate.
Qed.

Lemma float_db_reachable : reachable (host := sample_host) float_db.
Proof.
  change float_db with (run (host := sample_host) init_db float_calls).
  apply run_reachable; [apply reach_init|].
  repeat constructor; simpl; discriminate.
Qed.

Lemma blank_db_reachable : reachable (host := sample_host) blank_db.
Proof.
  change blank_db with (run (host := sample_host) init_db blank_calls).
  apply run_reachable; [apply reach_init|].
  repeat constructor; simpl; discriminate.
Qed.

Lemma infinite_db_reachable : reachable (host := sample_host) infinite_db.
Proof.
  change infinite_db
    with (run (host := sample_host) init_db infinite_calls).
  apply run_reachable; [apply reach_init|].
  repeat constructor; simpl; discriminate.
Qed.

(** ** Binary64 comparison *)

Lemma SFcompare_antisym (x y : spec_float) :
  SFcompare y x = option_map CompOpp (SFcompare x y).
Proof.
  destruct x as [[]|[]| |[] m1 e1], y as [[]|[]| |[] m2 e2]; simpl;
    try reflexivity;
    rewrite (Z.compare_antisym e1 e2);
    destruct (Z.compare e1 e2); simpl; try reflexivity;
    change (Pos.compare_cont Eq m2 m1) with (Pos.compare m2 m1);
    change (Pos.compare_cont Eq m1 m2) with (Pos.compare m1 m2);
    rewrite (Pos.compare_antisym m1 m2);
    now destruct (Pos.compare m1 m2).
Qed.

Lemma SFleb_total (x y : spec_float) :
  x <> S754_nan -> y <> S754_nan -> SFleb x y = false -> SFleb y x = true.
Proof.
  intros Nx Ny. unfold SFleb. rewrite (SFcompare_antisym x y).
  destruct (SFcompare x y) as [[]|] eqn:E; simpl; try congruence.
  destruct x, y; simpl in E; congruence.
Qed.

Lemma SFleb_trans (x y z : spec_float) :
  SFleb x y = true -> SFleb y z = true -> SFleb x z = true.
Proof.
  unfold SFleb.
  destruct x as [[]|[]| |[] m1 e1], y as [[]|[]| |[] m2 e2],
           z as [[]|[]| |[] m3 e3]; simpl; try congruence;
    change (Pos.compare_cont Eq m1 m2) with (Pos.compare m1 m2);
    change (Pos.compare_cont Eq m2 m3) with (Pos.compare m2 m3);
    change (Pos.compare_cont Eq m1 m3) with (Pos.compare m1 m3);
    destruct (Z.compare_spec e1 e2); destruct (Z.compare_spec e2 e3);
    destruct (Z.compare_spec e1 e3); try congruence; try lia;
    destruct (Pos.compare_spec m1 m2); destruct (Pos.compare_spec m2 m3);
    destruct (Pos.compare_spec m1 m3); simpl; try congruence; try lia.
Qed.

(** On the binary64 numbers that are not NaN, [<=] is total and
    transitive. *)
Lemma float_leb_total (x y : float) :
  PrimFloat.is_nan x = false -> PrimFloat.is_nan y = false ->
  PrimFloat.leb x y = false -> PrimFloat.leb y x = true.
Proof.
  assert (number : forall z, PrimFloat.is_nan z = false ->
                             Prim2SF z <> S754_nan).
  { intros z H E. unfold PrimFloat.is_nan in H.
    rewrite eqb_spec, E in H. discriminate. }
  intros Nx Ny. rewrite !leb_spec. apply SFleb_total; now apply number.
Qed.

Lemma float_leb_trans (x y z : float) :
  PrimFloat.leb x y = true -> PrimFloat.leb y z = true ->
  PrimFloat.leb x z = true.
Proof. rewrite !leb_spec. apply SFleb_trans. Qed.

(** ** The access gate *)

Lemma NoDup_map_eq {T U} (f : T -> U) (l : list T) (x y : T) :
  NoDup (map f l) -> In x l -> In y l -> f x = f y -> x = y.
Proof.
  induction l as [|z l IH]; simpl; [tauto|].
  intros N Ix Iy E. inversion N as [|k ks Hk N']; subst.
  destruct Ix as [->|Ix], Iy as [->|Iy]; auto.
  - exfalso. apply Hk. rewrite E. now apply in_map.
  - exfalso. apply Hk. rewrite <- E. now apply in_map.
Qed.

Lemma find_witness {T} (p : T -> bool) (l : list T) (x : T) :
  In x l -> p x = true -> exists y, find p l = Some y.
Proof.
  intros I P. destruct (find p l) as [y|] eqn:F; [now exists y|].
  now rewrite (find_none _ _ F x I) in P.
Qed.

Section AccessGate.

Context {host : Host} {A : Type} {amt : Amount A}.

Lemma authenticate_Ok (d : db A) (key uid : string) :
  _authenticate d key = Ok uid ->
  key <> ""
  /\ exists u, In u (users d) /\ User.api_key u = key
               /\ User.user_id u = uid.
Proof.
  unfold _authenticate.
  destruct (String.eqb_spec key "") as [|N]; [discriminate|].
  destruct (find _ _) as [u|] eqn:F; [|discriminate].
  intros H. injection H as <-. split; [exact N|].
  apply find_some in F. destruct F as [I E].
  apply String.eqb_eq in E. now exists u.
Qed.

(** The gate raises exactly when the key is empty or held by no row. *)
Lemma authenticate_Raise (d : db A) (key : string) (e : exn) :
  _authenticate d key = Raise e ->
  (key = "" /\ e = ValueError "API key is required")
  \/ (~ In key (map User.api_key (users d))
      /\ e = ValueError "Invalid API key").
Proof.
  unfold _authenticate.
  destruct (String.eqb_spec key "") as [E|N].
  - intros H. injection H as <-. now left.
  - destruct (find _ _) as [u|] eqn:F; [discriminate|].
    intros H. injection H as <-. right. split; [|reflexivity].
    intros I. apply in_map_iff in I. destruct I as (u & E & I).
    apply (find_none _ _ F) in I. rewrite E, String.eqb_refl in I.
    discriminate.
Qed.

Lemma authenticate_row (d : db A) (u : User.t) :
  consistent d -> In u (users d) ->
  _authenticate d (User.api_key u) = Ok (User.user_id u).
Proof.
  intros C I. unfold _authenticate.
  pose proof (api_keys_nonempty C) as NE. rewrite Forall_forall in NE.
  destruct (String.eqb_spec (User.api_key u) "") as [E|_];
    [now apply NE in E|].
  destruct (find_witness (fun v => String.eqb (User.api_key v)
                                     (User.api_key u)) _ u I
              (String.eqb_refl _)) as [v F].
  rewrite F. apply find_some in F. destruct F as [Iv E].
  apply String.eqb_eq in E.
  now rewrite (NoDup_map_eq _ _ v u (api_keys_unique C) Iv I E).
Qed.

(** What a successful rotation did. *)
Lemma regenerate_api_key_Regenerated (d d' : db A) (r : draws)
  (email password new_key uid : string) :
  regenerate_api_key d r email password
    = (Returned (Regenerated new_key uid), d') ->
  new_key = token_urlsafe32 r
  /\ (exists u, In u (users d) /\ User.user_id u = uid)
  /\ existsb (fun v => negb (String.eqb (User.user_id v) uid)
                       && String.eqb (User.api_key v) new_key) (users d)
     = false
  /\ users d' = map (set_api_key uid new_key (now_iso r)) (users d).
Proof.
  unfold regenerate_api_key.
  destruct (find _ _) as [u|] eqn:F; [|discriminate].
  destruct (negb _); [discriminate|].
  unfold update_api_key.
  destruct (existsb _ _) eqn:EX; [discriminate|].
  intros H. injection H as <- <- <-. simpl.
  repeat split; auto.
  apply find_some in F. exists u. tauto.
Qed.

(** C2: in every reachable state each account's current [api_key]
    authenticates as that account; and after a successful
    [regenerate_api_key] that drew a key different from the old one, the
    old key is refused while the returned key authenticates as the same
    account. *)
Theorem authenticate_follows_current_key (d : db A) :
  reachable d ->
  (forall u, In u (users d) ->
     _authenticate d (User.api_key u) = Ok (User.user_id u))
  /\ (forall r email password new_key uid d' old_key,
        token_urlsafe32 r <> "" ->
        regenerate_api_key d r email password
          = (Returned (Regenerated new_key uid), d') ->
        _authenticate d old_key = Ok uid ->
        old_key <> new_key ->
        _authenticate d' old_key = Raise (ValueError "Invalid API key")
        /\ _authenticate d' new_key = Ok uid).
Proof.
  intros R. pose proof (reachable_consistent d R) as C.
  split; [intros u I; now apply authenticate_row|].
  intros r email password new_key uid d' old_key Hr Hreg Hold Hne.
  apply regenerate_api_key_Regenerated in Hreg.
  destruct Hreg as (Hk & (u & Iu & Eu) & EX & Hu).
  apply authenticate_Ok in Hold.
  destruct Hold as (Hne0 & u0 & Iu0 & Ek0 & Eu0).
  unfold _authenticate. rewrite Hu. split.
  - destruct (String.eqb_spec old_key "") as [|_]; [contradiction|].
    destruct (find _ _) as [w|] eqn:F; [exfalso|reflexivity].
    apply find_some in F. destruct F as [Iw Ew].
    apply String.eqb_eq in Ew. apply in_map_iff in Iw.
    destruct Iw as (v & <- & Iv). rewrite set_api_key_key in Ew.
    destruct (String.eqb_spec (User.user_id v) uid) as [Ev|Nv].
    + now apply Hne.
    + apply Nv. rewrite <- Eu0. f_equal.
      apply (NoDup_map_eq _ _ v u0 (api_keys_unique C) Iv Iu0).
      congruence.
  - destruct (String.eqb_spec new_key "") as [E|_]; [congruence|].
    destruct (find_witness
                (fun v => String.eqb (User.api_key v) new_key)
                (map (set_api_key uid new_key (now_iso r)) (users d))
                (set_api_key uid new_key (now_iso r) u)) as [w F].
    { now apply in_map. }
    { rewrite set_api_key_key, Eu, String.eqb_refl.
      apply String.eqb_refl. }
    rewrite F. apply find_some in F. destruct F as [Iw Ew].
    apply String.eqb_eq in Ew. apply in_map_iff in Iw.
    destruct Iw as (v & <- & Iv). rewrite set_api_key_user_id.
    rewrite set_api_key_key in Ew.
    destruct (String.eqb_spec (User.user_id v) uid) as [Ev|Nv];
      [now rewrite Ev|].
    apply (existsb_false_In _ _ v) in EX; [|exact Iv]. simpl in EX.
    apply String.eqb_neq in Nv. rewrite Nv, Ew, String.eqb_refl in EX.
    discriminate.
Qed.

End AccessGate.

(** Alice's key authenticates her; after she rotates it, the old key is
    refused and the new one authenticates her. *)
Lemma authenticate_follows_current_key_witness :
  _authenticate sample_db "alice-key" = Ok "user_a11ce00000000001"
  /\ _authenticate
       (snd (regenerate_api_key (host := sample_host) sample_db
               rotation_draws "ALICE@example.com" "wonderland"))
       "alice-key" = Raise (ValueError "Invalid API key")
  /\ _authenticate
       (snd (regenerate_api_key (host := sample_host) sample_db
               rotation_draws "ALICE@example.com" "wonderland"))
       "alice-key-2" = Ok "user_a11ce00000000001".
Proof.
  destruct (authenticate_follows_current_key (host := sample_host)
              sample_db sample_db_reachable)
    as [current rotated].
  split.
  - apply (current alice). simpl. now left.
  - apply (rotated rotation_draws "ALICE@example.com" "wonderland").
    + simpl. discriminate.
    + reflexivity.
    + reflexivity.
    + discriminate.
Defined.

(** ** The ledger *)

Lemma filter_none {T} (p : T -> bool) (l : list T) :
  (forall x, In x l -> p x = false) -> filter p l = [].
Proof.
  induction l as [|x l IH]; simpl; intros H; [reflexivity|].
  rewrite (H x (or_introl eq_refl)). apply IH. intros y I. apply H. now right.
Qed.

Section Ledger.

Context {host : Host} {A : Type} {amt : Amount A}.

Lemma date_id_desc_total (x y : Expense.t A) :
  date_id_desc x y = false -> date_id_desc y x = true.
Proof.
  unfold date_id_desc. intros H. apply orb_false_elim in H.
  destruct H as [L E].
  destruct (String.eqb_spec (Expense.date x) (Expense.date y)) as [D|D].
  - rewrite <- D, String.eqb_refl. simpl in E.
    apply Z.leb_gt in E. apply orb_true_intro. right. simpl.
    apply Z.leb_le. lia.
  - rewrite (string_ltb_total _ _ L); [reflexivity|congruence].
Qed.

Lemma date_id_desc_trans (x y z : Expense.t A) :
  date_id_desc x y = true -> date_id_desc y z = true ->
  date_id_desc x z = true.
Proof.
  unfold date_id_desc. intros H1 H2.
  apply orb_true_iff in H1. apply orb_true_iff in H2.
  apply orb_true_iff.
  destruct H1 as [L1|E1], H2 as [L2|E2].
  - left. now apply string_ltb_trans with (Expense.date y).
  - apply andb_true_iff in E2. destruct E2 as [D2 _].
    apply String.eqb_eq in D2. left. now rewrite <- D2.
  - apply andb_true_iff in E1. destruct E1 as [D1 _].
    apply String.eqb_eq in D1. left. now rewrite D1.
  - apply andb_true_iff in E1. apply andb_true_iff in E2.
    destruct E1 as [D1 I1], E2 as [D2 I2].
    apply String.eqb_eq in D1. apply String.eqb_eq in D2.
    apply Z.leb_le in I1. apply Z.leb_le in I2.
    right. apply andb_true_iff. split.
    + apply String.eqb_eq. congruence.
    + apply Z.leb_le. lia.
Qed.

(** The query returns the rows of the account in the range, once each. *)
Lemma select_expenses_perm (d : db A) (uid start_date end_date : string) :
  Permutation (select_expenses d uid start_date end_date)
    (filter (in_range uid start_date end_date) (expenses d)).
Proof. apply order_by_perm. Qed.

Lemma select_expenses_In (d : db A) (uid start_date end_date : string)
  (x : Expense.t A) :
  In x (select_expenses d uid start_date end_date) ->
  In x (expenses d) /\ Expense.user_id x = uid.
Proof.
  intros I. apply (Permutation_in _ (select_expenses_perm _ _ _ _)) in I.
  apply filter_In in I. destruct I as [I P]. split; [exact I|].
  unfold in_range in P. apply andb_true_iff in P.
  now apply String.eqb_eq.
Qed.

(** C1: in every reachable state, an expense of account A is never among
    the rows [list_expenses] returns under the key of another account B,
    and [delete_expense] with B's key on that expense's id answers
    "Expense not found or not yours." and leaves the tables as they
    were. *)
Theorem tenant_isolation (d : db A) (x : Expense.t A) (key_b b : string) :
  reachable d ->
  In x (expenses d) ->
  _authenticate d key_b = Ok b ->
  Expense.user_id x <> b ->
  (forall start_date end_date,
     exists rows,
       list_expenses d start_date end_date key_b
         = (Returned (Listing (List.length rows) rows), d)
       /\ forall row, In row rows -> d_id row <> Expense.id x)
  /\ delete_expense d (Expense.id x) key_b
     = (Returned (StatusError "Expense not found or not yours."), d)
  /\ In x (expenses (snd (delete_expense d (Expense.id x) key_b))).
Proof.
  intros R Ix Hb Nb. pose proof (reachable_consistent d R) as C.
  assert (same : forall y, In y (expenses d) ->
                           Expense.id y = Expense.id x -> y = x).
  { intros y Iy E. exact (NoDup_map_eq _ _ y x (ids_unique C) Iy Ix E). }
  assert (del : delete_expense d (Expense.id x) key_b
                = (Returned (StatusError "Expense not found or not yours."),
                   d)).
  { unfold delete_expense. rewrite Hb.
    pose proof (ids_handed_out C) as IH. rewrite Forall_forall in IH.
    pose proof (IH x Ix) as Bx. pose proof (seq_bounded C) as SB.
    replace ((Expense.id x <? - max_rowid - 1)
             || (max_rowid <? Expense.id x)) with false
      by (symmetry; apply orb_false_intro; apply Z.ltb_ge;
          unfold max_rowid in *; lia).
    destruct (existsb _ _) eqn:EX; [exfalso|reflexivity].
    apply existsb_exists in EX. destruct EX as (y & Iy & O).
    unfold owned_by in O. apply andb_true_iff in O. destruct O as [Ei Eu].
    apply Z.eqb_eq in Ei. apply String.eqb_eq in Eu.
    apply Nb. now rewrite <- (same y Iy Ei). }
  split; [|split; [exact del | now rewrite del]].
  intros start_date end_date. unfold list_expenses. rewrite Hb.
  eexists. split; [reflexivity|].
  intros row I E. apply in_map_iff in I. destruct I as (y & <- & Iy).
  apply select_expenses_In in Iy. destruct Iy as [Iy Eu].
  simpl in E. apply Nb. now rewrite <- (same y Iy E).
Qed.

(** The rows the query fetches are in strict order. *)
Lemma select_expenses_sorted (d : db A) (uid start_date end_date : string) :
  consistent d ->
  StronglySorted
    (fun x y =>
       String.ltb (Expense.date y) (Expense.date x) = true
       \/ (Expense.date x = Expense.date y
           /\ Expense.id y < Expense.id x))
    (select_expenses d uid start_date end_date).
Proof.
  intros C.
  apply StronglySorted_impl
    with (R := fun a b => date_id_desc a b = true
                          /\ Expense.id a <> Expense.id b).
  - intros a b [B N]. unfold date_id_desc in B.
    apply orb_true_iff in B. destruct B as [L|E]; [now left|right].
    apply andb_true_iff in E. destruct E as [D I].
    apply String.eqb_eq in D. apply Z.leb_le in I. split; [exact D|lia].
  - apply StronglySorted_strict.
    + apply order_by_sorted;
        [apply date_id_desc_total | apply date_id_desc_trans].
    + apply (Permutation_NoDup
               (Permutation_map _
                  (Permutation_sym (select_expenses_perm _ _ _ _)))).
      apply NoDup_map_filter. apply (ids_unique C).
Qed.

(** What [list_expenses] returns is the listing of the account's
    expenses in the range. *)
Lemma select_expenses_listing (d : db A)
  (uid start_date end_date : string) :
  consistent d ->
  listing_of d uid start_date end_date
    (map to_dict (select_expenses d uid start_date end_date)).
Proof.
  intros C. exists (select_expenses d uid start_date end_date).
  split; [reflexivity|]. split.
  - apply select_expenses_perm.
  - now apply select_expenses_sorted.
Qed.

(** C7: for an authenticated account, [list_expenses] returns one
    dictionary for each of the account's stored expenses whose date lies
    in the inclusive range, and for no other; the dictionary holds the
    id, date, amount, category, subcategory and note of the expense; the
    count is their number; and they come with later dates first and,
    within a date, larger ids first. *)
Theorem list_expenses_range_newest_first (d : db A)
  (start_date end_date key uid : string) :
  reachable d ->
  _authenticate d key = Ok uid ->
  exists rows,
    list_expenses d start_date end_date key
      = (Returned
           (Listing (List.length rows)
              (map (fun x =>
                      {| d_id := Expense.id x; d_date := Expense.date x;
                         d_amount := Expense.amount x;
                         d_category := Expense.category x;
                         d_subcategory := Expense.subcategory x;
                         d_note := Expense.note x |}) rows)), d)
    /\ Permutation rows
         (filter (fun x => String.eqb (Expense.user_id x) uid
                           && (String.leb start_date (Expense.date x)
                               && String.leb (Expense.date x) end_date))
            (expenses d))
    /\ StronglySorted
         (fun x y =>
            String.ltb (Expense.date y) (Expense.date x) = true
            \/ (Expense.date x = Expense.date y
                /\ Expense.id y < Expense.id x)) rows.
Proof.
  intros R H. pose proof (reachable_consistent d R) as C.
  exists (select_expenses d uid start_date end_date).
  split; [|split].
  - unfold list_expenses. rewrite H. now rewrite length_map.
  - apply select_expenses_perm.
  - now apply select_expenses_sorted.
Qed.

(** C8: for an authenticated account and [start_date] greater than
    [end_date], [list_expenses] returns count 0 and no rows, not an
    error. *)
Theorem list_expenses_empty_range (d : db A)
  (start_date end_date key uid : string) :
  _authenticate d key = Ok uid ->
  String.ltb end_date start_date = true ->
  list_expenses d start_date end_date key = (Returned (Listing 0 []), d).
Proof.
  intros H L. unfold list_expenses, select_expenses. rewrite H.
  rewrite filter_none; [reflexivity|].
  intros x _. unfold in_range. rewrite (between_empty _ _ _ L).
  apply andb_false_r.
Qed.

End Ledger.

(** Bob neither sees nor deletes Alice's first expense. *)
Lemma tenant_isolation_witness :
  (exists rows,
     list_expenses sample_db "2024-01-01" "2024-12-31" "bob-key"
       = (Returned (Listing (List.length rows) rows), sample_db)
     /\ forall row, In row rows -> d_id row <> 1)
  /\ delete_expense sample_db 1 "bob-key"
     = (Returned (StatusError "Expense not found or not yours."), sample_db)
  /\ In lunch (expenses (snd (delete_expense sample_db 1 "bob-key"))).
Proof.
  destruct (tenant_isolation (host := sample_host) sample_db lunch
              "bob-key" "user_b0b0000000000002" sample_db_reachable)
    as [listed deleted].
  - simpl. now left.
  - reflexivity.
  - simpl. discriminate.
  - split; [apply listed | exact deleted].
Defined.

(** Alice's January expenses, newest first. *)
Lemma list_expenses_range_newest_first_witness :
  exists rows,
    list_expenses sample_db "2024-01-01" "2024-01-31" "alice-key"
      = (Returned
           (Listing (List.length rows)
              (map (fun x =>
                      {| d_id := Expense.id x; d_date := Expense.date x;
                         d_amount := Expense.amount x;
                         d_category := Expense.category x;
                         d_subcategory := Expense.subcategory x;
                         d_note := Expense.note x |}) rows)), sample_db)
    /\ Permutation rows
         (filter (fun x =>
                    String.eqb (Expense.user_id x) "user_a11ce00000000001"
                    && (String.leb "2024-01-01" (Expense.date x)
                        && String.leb (Expense.date x) "2024-01-31"))
            (expenses sample_db))
    /\ StronglySorted
         (fun x y =>
            String.ltb (Expense.date y) (Expense.date x) = true
            \/ (Expense.date x = Expense.date y
                /\ Expense.id y < Expense.id x)) rows.
Proof.
  apply (list_expenses_range_newest_first (host := sample_host)).
  - exact sample_db_reachable.
  - reflexivity.
Defined.

(** A range that ends before it starts. *)
Lemma list_expenses_empty_range_witness :
  list_expenses sample_db "2024-02-01" "2024-01-01" "alice-key"
  = (Returned (Listing 0 []), sample_db).
Proof.
  apply (list_expenses_empty_range sample_db "2024-02-01" "2024-01-01"
           "alice-key" "user_a11ce00000000001"); reflexivity.
Defined.

(** ** Aggregation *)

Lemma distinct_In (l : list string) (c : string) :
  In c (distinct l) <-> In c l.
Proof.
  induction l as [|a l IH]; simpl; [tauto|].
  rewrite filter_In, IH, negb_true_iff, String.eqb_neq.
  destruct (string_dec a c) as [E|N]; [tauto|].
  split; [tauto|]. intros [E|I]; [tauto|]. right. split; congruence.
Qed.

Lemma distinct_NoDup (l : list string) : NoDup (distinct l).
Proof.
  induction l as [|a l IH]; simpl; constructor.
  - rewrite filter_In, String.eqb_refl. simpl. intros [_ F]. discriminate.
  - now apply NoDup_filter.
Qed.

(** ** Grouping and exact sums *)

Section GroupBy.

Variables (T M : Type) (op : M -> M -> M) (e : M).
Hypothesis op_assoc : forall x y z, op x (op y z) = op (op x y) z.
Hypothesis op_comm : forall x y, op x y = op y x.
Hypothesis op_e_l : forall x, op e x = x.

Variable key : T -> string.
Variable f : T -> M.

Lemma fold_left_right (l : list M) (a : M) :
  fold_left op l a = op a (fold_right op e l).
Proof.
  revert a. induction l as [|x l IH]; intros a; simpl.
  - now rewrite op_comm, op_e_l.
  - now rewrite IH, op_assoc.
Qed.

Lemma fold_left_from_e (l : list M) : fold_left op l e = fold_right op e l.
Proof. now rewrite fold_left_right, op_e_l. Qed.

Lemma fold_right_perm (l l' : list M) :
  Permutation l l' -> fold_right op e l = fold_right op e l'.
Proof.
  induction 1 as [|x l l' P IH|x y l|l l' l'' P1 IH1 P2 IH2]; simpl.
  - reflexivity.
  - now rewrite IH.
  - now rewrite !op_assoc, (op_comm y x).
  - congruence.
Qed.

Lemma fold_right_filter_split (p : T -> bool) (l : list T) :
  fold_right op e (map f l)
  = op (fold_right op e (map f (filter p l)))
       (fold_right op e (map f (filter (fun x => negb (p x)) l))).
Proof.
  induction l as [|x l IH]; simpl.
  - now rewrite op_e_l.
  - rewrite IH. destruct (p x); simpl.
    + now rewrite op_assoc.
    + now rewrite !op_assoc, (op_comm (f x)).
Qed.

Lemma filter_filter_implied (p q : T -> bool) (l : list T) :
  (forall x, p x = true -> q x = true) ->
  filter p (filter q l) = filter p l.
Proof.
  intros H. induction l as [|x l IH]; simpl; [reflexivity|].
  destruct (q x) eqn:Q; simpl; rewrite IH; [reflexivity|].
  destruct (p x) eqn:P; [|reflexivity].
  apply H in P. congruence.
Qed.

(** Adding up group by group is adding up everything, when the groups
    are taken over distinct keys that cover the rows. *)
Lemma group_by_total (cs : list string) (l : list T) :
  NoDup cs ->
  (forall x, In x l -> In (key x) cs) ->
  fold_right op e
    (map (fun c =>
            fold_right op e
              (map f (filter (fun x => String.eqb (key x) c) l))) cs)
  = fold_right op e (map f l).
Proof.
  revert l. induction cs as [|c cs IH]; intros l N cover; simpl.
  - destruct l as [|x l]; [reflexivity|].
    destruct (cover x (or_introl eq_refl)).
  - inversion N as [|? ? Hc N']; subst.
    rewrite (fold_right_filter_split (fun x => String.eqb (key x) c) l).
    f_equal.
    rewrite <- (IH (filter (fun x => negb (String.eqb (key x) c)) l) N').
    + f_equal. apply map_ext_in. intros c' I. f_equal. f_equal.
      symmetry. apply filter_filter_implied.
      intros x E. apply String.eqb_eq in E. apply negb_true_iff.
      apply String.eqb_neq. intros E'. apply Hc. congruence.
    + intros x I. apply filter_In in I. destruct I as [I K].
      apply negb_true_iff in K. apply String.eqb_neq in K.
      destruct (cover x I) as [E|I']; [congruence|exact I'].
Qed.

End GroupBy.

(** ** The format test *)

Lemma contains_app (c : ascii) (s t : string) :
  Text.contains c (s ++ t) = Text.contains c s || Text.contains c t.
Proof.
  induction s as [|a s IH]; simpl; [reflexivity|].
  now rewrite IH, orb_assoc.
Qed.

Lemma split_nonempty (sep : ascii) (s : string) : Text.split sep s <> [].
Proof.
  destruct s as [|a s]; simpl; [discriminate|].
  destruct (Ascii.eqb a sep); [discriminate|].
  destruct (Text.split sep s); discriminate.
Qed.

Lemma split_without_sep (sep : ascii) (s : string) :
  Text.contains sep s = false -> Text.split sep s = [s].
Proof.
  induction s as [|a s IH]; simpl; [reflexivity|].
  intros H. apply orb_false_elim in H. destruct H as [Ha Hs].
  now rewrite Ha, (IH Hs).
Qed.

(** Splitting at a separator splits the list of parts. *)
Lemma split_app_sep (sep : ascii) (s t : string) :
  Text.split sep (s ++ String sep t)
  = (Text.split sep s ++ Text.split sep t)%list.
Proof.
  induction s as [|a s IH]; simpl.
  - now rewrite Ascii.eqb_refl.
  - destruct (Ascii.eqb a sep); [now rewrite IH|].
    rewrite IH. pose proof (split_nonempty sep s) as N.
    destruct (Text.split sep s) as [|p ps]; [contradiction|reflexivity].
Qed.

Lemma last_app_nonempty {T} (l l' : list T) (x : T) :
  l' <> [] -> last (l ++ l')%list x = last l' x.
Proof.
  intros N. induction l as [|a l IH]; simpl; [reflexivity|].
  destruct (l ++ l')%list as [|b m] eqn:E; [|exact IH].
  apply app_eq_nil in E. tauto.
Qed.

(** The last part is the text after the last separator. *)
Lemma last_part_after_sep (sep : ascii) (s t : string) :
  Text.contains sep t = false ->
  Text.last_part (Text.split sep (s ++ String sep t)) = t.
Proof.
  intros H. unfold Text.last_part.
  rewrite split_app_sep, last_app_nonempty by apply split_nonempty.
  now rewrite (split_without_sep sep t H).
Qed.

Lemma contains_last_sep (sep : ascii) (s : string) :
  Text.contains sep s = true ->
  exists l t, s = l ++ String sep t /\ Text.contains sep t = false.
Proof.
  induction s as [|a s IH]; simpl; [discriminate|].
  intros H. destruct (Text.contains sep s) eqn:C.
  - destruct (IH eq_refl) as (l & t & -> & Ht).
    exists (String a l), t. now split.
  - rewrite orb_false_r in H. apply Ascii.eqb_eq in H. subst a.
    exists "", s. now split.
Qed.

(** The format test accepts exactly the texts with an [@] followed by a
    domain with a dot. *)
Lemma email_format_ok_spec (email : string) :
  email_format_ok email = true <-> at_and_dotted_domain email.
Proof.
  unfold email_format_ok, at_and_dotted_domain. split.
  - intros H. apply andb_true_iff in H. destruct H as [Hat Hdot].
    destruct (contains_last_sep _ _ Hat) as (l & t & -> & Ht).
    rewrite (last_part_after_sep _ l t Ht) in Hdot.
    now exists l, t.
  - intros (l & t & -> & Ht & Hdot). simpl.
    rewrite (last_part_after_sep _ l t Ht), Hdot, contains_app. simpl.
    now rewrite orb_true_r.
Qed.

Lemma address_shape_dotted (email : string) :
  address_shape email -> at_and_dotted_domain email.
Proof. intros (l & t & E & _ & H). now exists l, t. Qed.

(** ** Lowercasing *)

Lemma lower_char_idempotent (a : ascii) :
  Text.lower_char (Text.lower_char a) = Text.lower_char a.
Proof. destruct a as [[] [] [] [] [] [] [] []]; reflexivity. Qed.

Lemma LOWER_idempotent (s : string) : Text.LOWER (Text.LOWER s) = Text.LOWER s.
Proof.
  induction s as [|a s IH]; simpl; [reflexivity|].
  now rewrite lower_char_idempotent, IH.
Qed.

Lemma lower_latin1_ascii (s : string) :
  Text.is_ascii s = true -> lower_latin1 s = Text.LOWER s.
Proof.
  induction s as [|a t IH]; [reflexivity|].
  intros H. simpl in H. apply andb_true_iff in H. destruct H as [Ha Ht].
  specialize (IH Ht). destruct t as [|b u]; [reflexivity|].
  change (lower_latin1 (String a (String b u)))
    with (if (N.eqb (N_of_ascii a) 195 && N.leb 128 (N_of_ascii b)
              && N.leb (N_of_ascii b) 158
              && negb (N.eqb (N_of_ascii b) 151))%bool
          then String a (String (ascii_of_N (N_of_ascii b + 32))
                           (lower_latin1 u))
          else String (Text.lower_char a) (lower_latin1 (String b u))).
  apply N.ltb_lt in Ha.
  replace (N.eqb (N_of_ascii a) 195) with false
    by (symmetry; apply N.eqb_neq; lia).
  simpl andb. cbv iota. rewrite IH. reflexivity.
Qed.

Lemma sample_host_lower : lower_agrees_on_ascii sample_host.
Proof. intros s H. now apply lower_latin1_ascii. Qed.

(** ** Registration *)

Section Registration.

Context {host : Host} {A : Type} {amt : Amount A}.

(** What a successful registration did. *)
Lemma register_user_Registered (d d' : db A) (r : draws)
  (email name password key uid shown_name shown_email : string) :
  register_user d r email name password
    = (Returned (Registered key uid shown_name shown_email), d') ->
  exists u,
    users d' = (users d ++ [u])%list
    /\ User.user_id u = uid /\ User.api_key u = key
    /\ User.email u = str_lower email
    /\ shown_email = str_lower email.
Proof.
  unfold register_user.
  destruct (negb _); [discriminate|].
  destruct (existsb _ _); [discriminate|].
  unfold insert_user. simpl.
  destruct (existsb _ _); [discriminate|].
  destruct (existsb _ _); [discriminate|].
  destruct (existsb _ _); [discriminate|].
  intros H. injection H as <- <- <- <- <-.
  eexists. simpl. repeat split.
Qed.

(** C9: whenever [register_user] succeeds, the row it stores and the
    [email] field it returns both hold [email.lower()]. *)
Theorem register_user_lowercases_email (d d' : db A) (r : draws)
  (email name password key uid shown_name shown_email : string) :
  register_user d r email name password
    = (Returned (Registered key uid shown_name shown_email), d') ->
  shown_email = str_lower email
  /\ exists u, users d' = (users d ++ [u])%list
               /\ User.user_id u = uid
               /\ User.email u = str_lower email.
Proof.
  intros H. apply register_user_Registered in H.
  destruct H as (u & Hu & Hid & _ & He & Hs).
  split; [exact Hs|]. now exists u.
Qed.

(** C6, amended: [register_user] answers "Invalid email format." and
    leaves the tables as they were exactly when the email has no [@] or
    the text after its last [@] has no dot; an email with the shape of an
    address is therefore never refused for its format, and neither is one
    with an empty local part. *)
Theorem register_user_email_format (d : db A) (r : draws)
  (email name password : string) :
  (~ at_and_dotted_domain email ->
   register_user d r email name password
   = (Returned (StatusError "Invalid email format."), d))
  /\ (at_and_dotted_domain email ->
      fst (register_user d r email name password)
      <> Returned (StatusError "Invalid email format."))
  /\ (address_shape email ->
      fst (register_user d r email name password)
      <> Returned (StatusError "Invalid email format.")).
Proof.
  assert (pass : at_and_dotted_domain email ->
                 fst (register_user d r email name password)
                 <> Returned (StatusError "Invalid email format.")).
  { intros S. apply email_format_ok_spec in S. unfold register_user.
    rewrite S. simpl.
    destruct (existsb _ _); [simpl; discriminate|].
    destruct (insert_user _ _); simpl; discriminate. }
  split; [|split; [exact pass|]].
  - intros N. unfold register_user.
    destruct (email_format_ok email) eqn:E; [|reflexivity].
    apply email_format_ok_spec in E. contradiction.
  - intros S. apply pass. now apply address_shape_dotted.
Qed.

(** Registering again an email with the same lowercased form never
    succeeds and never changes the tables. *)
Lemma register_user_again (d d1 : db A) (r1 r2 : draws)
  (email1 name1 password1 email2 name2 password2 : string)
  (key uid shown_name shown_email : string) :
  register_user d r1 email1 name1 password1
    = (Returned (Registered key uid shown_name shown_email), d1) ->
  str_lower email1 = str_lower email2 ->
  exists message,
    register_user d1 r2 email2 name2 password2
    = (Returned (StatusError message), d1).
Proof.
  intros H L. apply register_user_Registered in H.
  destruct H as (u & Hu & _ & _ & He & _).
  unfold register_user.
  destruct (negb _); [eexists; reflexivity|].
  destruct (existsb _ _); [eexists; reflexivity|].
  unfold insert_user. simpl.
  replace (existsb _ (users d1)) with true; [eexists; reflexivity|].
  symmetry. apply existsb_exists. exists u. split.
  - rewrite Hu. apply in_or_app. right. now left.
  - rewrite He, L. apply String.eqb_refl.
Qed.

(** When SQLite's [LOWER] sees the stored and the new email as equal, as
    it does for emails that differ in the case of ASCII letters, the
    second registration is answered with the duplicate-email message. *)
Lemma register_user_duplicate (d d1 : db A) (r1 r2 : draws)
  (email1 name1 password1 email2 name2 password2 : string)
  (key uid shown_name shown_email : string) :
  register_user d r1 email1 name1 password1
    = (Returned (Registered key uid shown_name shown_email), d1) ->
  Text.LOWER (str_lower email1) = Text.LOWER email2 ->
  email_format_ok email2 = true ->
  register_user d1 r2 email2 name2 password2
  = (Returned (StatusError
       "This email is already registered. Use regenerate_api_key if you lost your key."),
     d1).
Proof.
  intros H L F. apply register_user_Registered in H.
  destruct H as (u & Hu & _ & _ & He & _).
  unfold register_user. rewrite F. simpl.
  replace (existsb _ (users d1)) with true; [reflexivity|].
  symmetry. apply existsb_exists. exists u. split.
  - rewrite Hu. apply in_or_app. right. now left.
  - unfold same_email. rewrite He, L. apply String.eqb_refl.
Qed.

(** For emails that differ in the case of ASCII letters only, the second
    registration is answered with the duplicate-email message. *)
Lemma register_user_duplicate_ascii (d d1 : db A) (r1 r2 : draws)
  (email1 name1 password1 email2 name2 password2 : string)
  (key uid shown_name shown_email : string) :
  lower_agrees_on_ascii host ->
  Text.is_ascii email1 = true ->
  Text.LOWER email1 = Text.LOWER email2 ->
  email_format_ok email2 = true ->
  register_user d r1 email1 name1 password1
    = (Returned (Registered key uid shown_name shown_email), d1) ->
  register_user d1 r2 email2 name2 password2
  = (Returned (StatusError
       "This email is already registered. Use regenerate_api_key if you lost your key."),
     d1).
Proof.
  intros P Ha L F H.
  eapply register_user_duplicate; [exact H| |exact F].
  now rewrite (P email1 Ha), LOWER_idempotent.
Qed.

End Registration.

(** ** The tool surface *)

Section Surface.

Context {host : Host} {A : Type} {amt : Amount A}.

Lemma authenticate_unknown (d : db A) (key : string) :
  key <> "" -> ~ In key (map User.api_key (users d)) ->
  _authenticate d key = Raise (ValueError "Invalid API key").
Proof.
  intros N I. unfold _authenticate.
  destruct (String.eqb_spec key "") as [|_]; [contradiction|].
  destruct (find _ _) as [u|] eqn:F; [exfalso|reflexivity].
  apply find_some in F. destruct F as [Iu E]. apply String.eqb_eq in E.
  apply I. rewrite <- E. now apply in_map.
Qed.

Lemma authenticate_held (d : db A) (key : string) :
  key <> "" -> In key (map User.api_key (users d)) ->
  exists uid, _authenticate d key = Ok uid.
Proof.
  intros N I. apply in_map_iff in I. destruct I as (u & E & I).
  unfold _authenticate.
  destruct (String.eqb_spec key "") as [|_]; [contradiction|].
  destruct (find_witness (fun v => String.eqb (User.api_key v) key)
              _ u I) as [v F].
  { rewrite E. apply String.eqb_refl. }
  rewrite F. eexists. reflexivity.
Qed.

(** C4, amended: [register_user] and [regenerate_api_key] always return a
    dictionary.  Each of the four tools that take an [api_key] raises
    [ValueError("API key is required")] when the key is the empty text,
    raises [ValueError("Invalid API key")] when the key is not empty and
    is the [api_key] of no stored account, in both cases leaving the
    tables as they were, and returns a dictionary when the key is the
    [api_key] of a stored account. *)
Theorem tools_raise_only_at_the_gate (d : db A) (c : call) :
  match key_of c with
  | None => exists r, fst (invoke d c) = Returned r
  | Some api_key =>
      (api_key = "" ->
       invoke d c = (Raised (ValueError "API key is required"), d))
      /\ (api_key <> "" ->
          ~ In api_key (map User.api_key (users d)) ->
          invoke d c = (Raised (ValueError "Invalid API key"), d))
      /\ (api_key <> "" ->
          In api_key (map User.api_key (users d)) ->
          exists r, fst (invoke d c) = Returned r)
  end.
Proof.
  destruct c; simpl.
  - unfold register_user.
    destruct (negb _); [eexists; reflexivity|].
    destruct (existsb _ _); [eexists; reflexivity|].
    destruct (insert_user _ _); eexists; reflexivity.
  - unfold regenerate_api_key.
    destruct (find _ _); [|eexists; reflexivity].
    destruct (negb _); [eexists; reflexivity|].
    destruct (update_api_key _ _ _ _); eexists; reflexivity.
  - split; [now intros ->|]. split; intros N I.
    + unfold add_expense. now rewrite (authenticate_unknown d api_key N I).
    + destruct (authenticate_held d api_key N I) as [uid G].
      unfold add_expense. rewrite G.
      destruct (insert_expense _ _ _ _ _ _ _) as [m|[id d']];
        eexists; reflexivity.
  - split; [now intros ->|]. split; intros N I.
    + unfold list_expenses.
      now rewrite (authenticate_unknown d api_key N I).
    + destruct (authenticate_held d api_key N I) as [uid G].
      unfold list_expenses. rewrite G. eexists. reflexivity.
  - split; [now intros ->|]. split; intros N I.
    + unfold summarize. now rewrite (authenticate_unknown d api_key N I).
    + destruct (authenticate_held d api_key N I) as [uid G].
      destruct (summarize_Returned d start_date end_date api_key uid
                  category G) as [r E].
      exists r. now rewrite E.
  - split; [now intros ->|]. split; intros N I.
    + unfold delete_expense.
      now rewrite (authenticate_unknown d api_key N I).
    + destruct (authenticate_held d api_key N I) as [uid G].
      unfold delete_expense. rewrite G.
      destruct (_ || _); [eexists; reflexivity|].
      destruct (negb _); eexists; reflexivity.
Qed.

End Surface.

(** ** Sample runs *)

(** C4 as stated fails: with an empty or unknown key the four ledger
    tools raise instead of returning an error dictionary. *)
Lemma tools_raise_on_bad_key :
  add_expense sample_db "2024-01-05" 100 "Other" "" "" ""
  = (Raised (ValueError "API key is required"), sample_db)
  /\ list_expenses sample_db "2024-01-01" "2024-01-31" "no-such-key"
     = (Raised (ValueError "Invalid API key"), sample_db)
  /\ summarize sample_db "2024-01-01" "2024-01-31" "" None
     = (Raised (ValueError "API key is required"), sample_db)
  /\ delete_expense sample_db 1 "no-such-key"
     = (Raised (ValueError "Invalid API key"), sample_db).
Proof. repeat split. Qed.

(** C3 as stated fails on binary64 amounts: with 0.3 in one category and
    0.2 and 0.1 in another, [summarize] rounds 0.2 + 0.1 to
    0.30000000000000004 first and returns 0.6000000000000001, while the
    amounts of the rows [list_expenses] returns add up to 0.6 (which is
    also their sum over the reals, rounded once). *)
Lemma summarize_total_binary64 :
  exists rows summary,
    list_expenses float_db "2024-01-01" "2024-01-31" "alice-key"
      = (Returned (Listing 3 rows), float_db)
    /\ map (@d_amount float) rows = [0.3; 0.2; 0.1]%float
    /\ summarize float_db "2024-01-01" "2024-01-31" "alice-key" None
       = (Returned (Summary 0.6000000000000001%float summary), float_db)
    /\ map (@s_total_amount float) summary
       = [0.30000000000000004; 0.3]%float
    /\ builtin_sum (map (@d_amount float) rows) = 0.6%float
    /\ 0.6000000000000001%float
       <> builtin_sum (map (@d_amount float) rows).
Proof.
  eexists. eexists.
  split; [vm_compute; reflexivity|].
  split; [reflexivity|].
  split; [vm_compute; reflexivity|].
  split; [reflexivity|].
  split; [vm_compute; reflexivity|].
  intros E.
  apply (f_equal (PrimFloat.eqb 0.6000000000000001%float)) in E.
  vm_compute in E. discriminate.
Qed.

(** C6 as stated fails: an address with an empty local part is
    registered. *)
Lemma register_user_empty_local_part :
  ~ address_shape "@a.b"
  /\ register_user (host := sample_host) (A := Z) init_db alice_draws
       "@a.b" "Alice" "wonderland"
     = (Returned (Registered "alice-key" "user_a11ce00000000001" "Alice"
                    "@a.b"),
        {| users :=
             [{| User.user_id := "user_a11ce00000000001";
                 User.api_key := "alice-key";
                 User.email := "@a.b";
                 User.name := "Alice";
                 User.password_hash := "5a17a$wonderland";
                 User.salt := "5a17a";
                 User.registered_at := "2024-01-01T09:00:00";
                 User.api_key_regen_at := None |}];
           expenses := [];
           expenses_seq := 0 |}).
Proof.
  split; [|reflexivity].
  intros (l & t & E & N & _ & _).
  destruct l as [|a l]; [contradiction|].
  simpl in E. injection E as _ E.
  apply (f_equal (Text.contains "@")) in E.
  rewrite contains_app in E. simpl in E.
  rewrite orb_true_r in E. discriminate.
Qed.

(** An address passes the format test; a text without [@] does not. *)
Lemma register_user_email_format_witness :
  address_shape "alice@example.com"
  /\ fst (register_user (host := sample_host) (A := Z) init_db alice_draws
            "alice@example.com" "Alice" "wonderland")
     <> Returned (StatusError "Invalid email format.")
  /\ register_user (host := sample_host) (A := Z) init_db alice_draws
       "alice.example.com" "Alice" "wonderland"
     = (Returned (StatusError "Invalid email format."), init_db).
Proof.
  assert (S : address_shape "alice@example.com").
  { exists "alice", "example.com". repeat split. discriminate. }
  destruct (register_user_email_format (host := sample_host) (A := Z)
              init_db alice_draws "alice@example.com" "Alice" "wonderland")
    as (_ & _ & shaped).
  destruct (register_user_email_format (host := sample_host) (A := Z)
              init_db alice_draws "alice.example.com" "Alice" "wonderland")
    as (refused & _ & _).
  split; [exact S|]. split; [exact (shaped S)|].
  apply refused. intros D. apply email_format_ok_spec in D.
  vm_compute in D. discriminate.
Defined.

(** Alice registers with capital letters in her email. *)
Lemma register_user_lowercases_email_witness :
  "alice@example.com" = lower_latin1 "Alice@Example.com"
  /\ exists u,
       users (snd (register_user (host := sample_host) (A := Z) init_db
                     alice_draws "Alice@Example.com" "Alice" "wonderland"))
       = (users (@init_db Z) ++ [u])%list
       /\ User.user_id u = "user_a11ce00000000001"
       /\ User.email u = lower_latin1 "Alice@Example.com".
Proof.
  apply (register_user_lowercases_email (host := sample_host) (A := Z)
           init_db _ alice_draws "Alice@Example.com" "Alice" "wonderland"
           "alice-key" "user_a11ce00000000001" "Alice" "alice@example.com").
  reflexivity.
Defined.

(** C5 fails on the code for a capital letter outside ASCII: with a
    [str.lower] that, like Python's, turns U+00C9 into U+00E9, the first
    registration of [capital_email] stores the email with the small
    letter; on the second, [LOWER()] leaves the capital letter as it is,
    the duplicate test finds nothing, and the INSERT is stopped by the
    UNIQUE constraint on [email] and reported as a registration error,
    not as a duplicate email. *)
Theorem register_user_capital_outside_ascii {host : Host} :
  str_lower capital_email = small_email ->
  exists d1 : db Z,
    register_user init_db alice_draws capital_email "Alice" "wonderland"
    = (Returned (Registered "alice-key" "user_a11ce00000000001" "Alice"
                   small_email), d1)
    /\ register_user d1 bob_draws capital_email "Alice" "wonderland"
       = (Returned (StatusError
            "Registration error: UNIQUE constraint failed: users.email"),
          d1).
Proof.
  intros L. eexists. split.
  - unfold register_user.
    replace (email_format_ok capital_email) with true by reflexivity.
    simpl. rewrite L. reflexivity.
  - unfold register_user.
    replace (email_format_ok capital_email) with true by reflexivity.
    unfold insert_user. simpl. rewrite L. reflexivity.
Qed.

(** The same two calls with [lower_latin1] for [str.lower]. *)
Lemma register_user_capital_outside_ascii_witness :
  register_user (host := sample_host) init_db alice_draws capital_email
    "Alice" "wonderland"
  = (Returned (Registered "alice-key" "user_a11ce00000000001" "Alice"
                 small_email), capital_db)
  /\ register_user (host := sample_host) capital_db bob_draws capital_email
       "Alice" "wonderland"
     = (Returned (StatusError
          "Registration error: UNIQUE constraint failed: users.email"),
        capital_db).
Proof.
  destruct (register_user_capital_outside_ascii (host := sample_host)
              eq_refl) as (d1 & first & second).
  assert (E : d1 = capital_db).
  { apply (f_equal snd) in first. symmetry. exact first. }
  rewrite E in first, second. split; [exact first | exact second].
Defined.

(** Registering Alice's email again in capital letters is answered with
    the duplicate-email message. *)
Example register_user_alice_again :
  register_user (host := sample_host)
    (snd (register_user (host := sample_host) (A := Z) init_db alice_draws
            "Alice@Example.com" "Alice" "wonderland"))
    bob_draws "ALICE@EXAMPLE.COM" "Alice" "wonderland"
  = (Returned (StatusError
       "This email is already registered. Use regenerate_api_key if you lost your key."),
     snd (register_user (host := sample_host) (A := Z) init_db alice_draws
            "Alice@Example.com" "Alice" "wonderland")).
Proof.
  eapply (register_user_duplicate_ascii (host := sample_host) init_db _
            alice_draws bob_draws "Alice@Example.com" "Alice" "wonderland").
  - exact sample_host_lower.
  - reflexivity.
  - reflexivity.
  - reflexivity.
  - reflexivity.
Qed.

(** The scenarios of the specification on [sample_db]: both of Alice's
    expenses are listed, the later one first, and summarized as 57.50 in
    two groups; an expense is deleted once, and not a second time. *)
Example sample_listing :
  fst (list_expenses sample_db "2024-01-01" "2024-01-31" "alice-key")
  = Returned (Listing 2
      [{| d_id := 2; d_date := "2024-01-10"; d_amount := 1200;
          d_category := "Transportation"; d_subcategory := "";
          d_note := "" |};
       {| d_id := 1; d_date := "2024-01-05"; d_amount := 4550;
          d_category := "Food & Dining"; d_subcategory := "";
          d_note := "" |}]).
Proof. reflexivity. Qed.

Example sample_summary :
  fst (summarize sample_db "2024-01-01" "2024-01-31" "alice-key" None)
  = Returned (Summary 5750
      [{| s_category := "Food & Dining"; s_total_amount := 4550;
          s_count := 1 |};
       {| s_category := "Transportation"; s_total_amount := 1200;
          s_count := 1 |}]).
Proof. reflexivity. Qed.

Example sample_delete_twice :
  fst (delete_expense sample_db 2 "alice-key")
  = Returned (Deleted "Expense 2 deleted.")
  /\ fst (delete_expense (snd (delete_expense sample_db 2 "alice-key")) 2
            "alice-key")
     = Returned (StatusError "Expense not found or not yours.").
Proof. split; reflexivity. Qed.

(** A wrong password leaves Alice's key in force. *)
Example sample_wrong_password :
  regenerate_api_key (host := sample_host) sample_db rotation_draws
    "alice@example.com" "looking-glass"
  = (Returned (StatusError "Incorrect password."), sample_db)
  /\ _authenticate sample_db "alice-key" = Ok "user_a11ce00000000001".
Proof. split; reflexivity. Qed.

(** * More on the tools *)

(** ** Adding and deleting *)

Lemma filter_all {T} (p : T -> bool) (l : list T) :
  (forall x, In x l -> p x = true) -> filter p l = l.
Proof.
  induction l as [|x l IH]; simpl; intros H; [reflexivity|].
  rewrite (H x (or_introl eq_refl)). f_equal. apply IH.
  intros y I. apply H. now right.
Qed.

(** In a column without repetitions a key selects its row and no other. *)
Lemma filter_unique_key {T} (key : T -> Z) (l : list T) (x : T) :
  NoDup (map key l) -> In x l ->
  filter (fun y => key y =? key x) l = [x].
Proof.
  induction l as [|z l IH]; simpl; [tauto|].
  intros N I. inversion N as [|k ks Hk N']; subst.
  destruct I as [->|I].
  - rewrite Z.eqb_refl. f_equal. apply filter_none.
    intros y Iy. apply Z.eqb_neq. intros E. apply Hk. rewrite <- E.
    now apply in_map.
  - destruct (Z.eqb_spec (key z) (key x)) as [E|_]; [|now apply IH].
    exfalso. apply Hk. rewrite E. now apply in_map.
Qed.

Lemma Permutation_split_by {T} (p : T -> bool) (l : list T) :
  Permutation l (filter p l ++ filter (fun x => negb (p x)) l).
Proof.
  induction l as [|x l IH]; simpl; [reflexivity|].
  destruct (p x); simpl.
  - now apply perm_skip.
  - rewrite IH at 1. apply Permutation_middle.
Qed.

Section AddDelete.

Context {host : Host} {A : Type} {amt : Amount A}.

(** The gate reads the [users] table and nothing else. *)
Lemma authenticate_users (d d' : db A) (key : string) :
  users d' = users d -> _authenticate d' key = _authenticate d key.
Proof. intros E. unfold _authenticate. now rewrite E. Qed.

(** What a successful [add_expense] did. *)
Lemma add_expense_Added (d d' : db A) (date : string) (amount : A)
  (category api_key subcategory note : string) (id : Z) :
  add_expense d date amount category api_key subcategory note
    = (Returned (Added id), d') ->
  exists uid,
    _authenticate d api_key = Ok uid
    /\ expenses_seq d < max_rowid
    /\ id = expenses_seq d + 1
    /\ users d' = users d
    /\ expenses_seq d' = id
    /\ expenses d'
       = (expenses d ++
          [{| Expense.id := id; Expense.user_id := uid;
              Expense.date := date; Expense.amount := as_real amount;
              Expense.category := category;
              Expense.subcategory := subcategory;
              Expense.note := note |}])%list
    /\ is_nan amount = false.
Proof.
  unfold add_expense, insert_expense.
  destruct (_authenticate d api_key) as [uid|e]; [|discriminate].
  destruct (is_nan amount); [discriminate|].
  destruct (Z.leb_spec max_rowid (expenses_seq d)) as [|L]; [discriminate|].
  intros H. injection H as <- <-. exists uid. simpl. repeat split.
  exact L.
Qed.

(** No call lowers the AUTOINCREMENT counter. *)
Lemma invoke_seq_monotone (d : db A) (c : call) :
  expenses_seq d <= expenses_seq (snd (invoke d c)).
Proof.
  destruct c; simpl.
  - unfold register_user.
    destruct (negb _); [simpl; lia|].
    destruct (existsb _ _); [simpl; lia|].
    unfold insert_user.
    repeat (destruct (existsb _ _); [simpl; lia|]). simpl. lia.
  - unfold regenerate_api_key.
    destruct (find _ _); [|simpl; lia].
    destruct (negb _); [simpl; lia|].
    unfold update_api_key. destruct (existsb _ _); simpl; lia.
  - unfold add_expense, insert_expense.
    destruct (_authenticate d api_key); [|simpl; lia].
    destruct (is_nan amount); [simpl; lia|].
    destruct (max_rowid <=? expenses_seq d); simpl; lia.
  - unfold list_expenses. destruct (_authenticate d api_key); simpl; lia.
  - rewrite summarize_snd. lia.
  - unfold delete_expense. destruct (_authenticate d api_key); [|simpl; lia].
    destruct (_ || _); [simpl; lia|].
    destruct (negb _); simpl; lia.
Qed.

Lemma run_seq_monotone (calls : list call) (d : db A) :
  expenses_seq d <= expenses_seq (run d calls).
Proof.
  revert d. induction calls as [|c calls IH]; intros d; simpl; [lia|].
  pose proof (invoke_seq_monotone d c). pose proof (IH (snd (invoke d c))).
  unfold run in *. lia.
Qed.

(** X1: ids are never reused.  From a reachable state and after any
    further calls (deletions included), the id a successful [add_expense]
    returns is one more than the counter, larger than the id of every
    expense stored before those calls, and larger than the id of every
    expense stored now. *)
Theorem add_expense_never_reuses_an_id (d d' : db A) (calls : list call)
  (date : string) (amount : A)
  (category api_key subcategory note : string) (id : Z) :
  reachable d ->
  Forall drawn_ok calls ->
  add_expense (run d calls) date amount category api_key subcategory note
    = (Returned (Added id), d') ->
  id = expenses_seq (run d calls) + 1
  /\ (forall x, In x (expenses d) -> Expense.id x < id)
  /\ (forall x, In x (expenses (run d calls)) -> Expense.id x < id).
Proof.
  intros R F H. apply add_expense_Added in H.
  destruct H as (uid & _ & _ & Hid & _).
  pose proof (run_seq_monotone calls d) as M.
  pose proof (ids_handed_out (reachable_consistent d R)) as B.
  pose proof (ids_handed_out
                (reachable_consistent _ (run_reachable calls d R F))) as B'.
  rewrite Forall_forall in B, B'.
  split; [exact Hid|]. split; intros x I.
  - specialize (B x I). lia.
  - specialize (B' x I). lia.
Qed.

(** X2: an expense that was added is listed.  After a successful
    [add_expense] the amount was not NaN, and [list_expenses] under the
    same key and for any range that contains the date returns a row with
    the returned id, the date, category, subcategory and note that were
    given, and the amount as the [REAL] column keeps it (the number that
    was given, but [0.0] for the negative zero). *)
Theorem add_expense_then_listed (d d' : db A) (date : string) (amount : A)
  (category api_key subcategory note : string) (id : Z)
  (start_date end_date : string) :
  add_expense d date amount category api_key subcategory note
    = (Returned (Added id), d') ->
  String.leb start_date date = true ->
  String.leb date end_date = true ->
  is_nan amount = false
  /\ exists rows,
       list_expenses d' start_date end_date api_key
         = (Returned (Listing (List.length rows) rows), d')
       /\ In {| d_id := id; d_date := date; d_amount := as_real amount;
                d_category := category; d_subcategory := subcategory;
                d_note := note |} rows.
Proof.
  intros H L1 L2. apply add_expense_Added in H.
  destruct H as (uid & G & _ & _ & U & _ & E & N).
  split; [exact N|].
  unfold list_expenses. rewrite (authenticate_users d d' api_key U), G.
  eexists. split; [reflexivity|].
  set (x := {| Expense.id := id; Expense.user_id := uid;
               Expense.date := date; Expense.amount := as_real amount;
               Expense.category := category;
               Expense.subcategory := subcategory;
               Expense.note := note |}) in *.
  change (In (to_dict x)
            (map to_dict (select_expenses d' uid start_date end_date))).
  apply in_map.
  apply (Permutation_in _
           (Permutation_sym (select_expenses_perm d' uid _ _))).
  apply filter_In. split.
  - rewrite E. apply in_or_app. right. now left.
  - unfold in_range, Text.between. simpl.
    now rewrite String.eqb_refl, L1, L2.
Qed.


(** X3: in a reachable state, [delete_expense] with the owner's key and
    the id of one of the owner's expenses succeeds, removes that row and
    no other, leaves the accounts alone, and a second call with the same
    arguments answers "Expense not found or not yours." and changes
    nothing. *)
Theorem delete_expense_removes_one (d : db A) (x : Expense.t A)
  (api_key : string) :
  reachable d ->
  In x (expenses d) ->
  _authenticate d api_key = Ok (Expense.user_id x) ->
  exists d',
    delete_expense d (Expense.id x) api_key
      = (Returned (Deleted ("Expense " ++ Text.str (Expense.id x)
                            ++ " deleted.")), d')
    /\ users d' = users d
    /\ (forall y, In y (expenses d') <-> In y (expenses d) /\ y <> x)
    /\ Permutation (expenses d) (x :: expenses d')
    /\ delete_expense d' (Expense.id x) api_key
       = (Returned (StatusError "Expense not found or not yours."), d').
Proof.
  intros R Ix G. pose proof (reachable_consistent d R) as C.
  assert (range : (Expense.id x <? - max_rowid - 1)
                  || (max_rowid <? Expense.id x) = false).
  { pose proof (ids_handed_out C) as B. rewrite Forall_forall in B.
    specialize (B x Ix). pose proof (seq_bounded C).
    apply orb_false_intro; apply Z.ltb_ge; unfold max_rowid in *; lia. }
  assert (own : forall y, In y (expenses d) ->
                  owned_by (Expense.id x) (Expense.user_id x) y = true ->
                  y = x).
  { intros y Iy O. unfold owned_by in O. apply andb_true_iff in O.
    destruct O as [E _]. apply Z.eqb_eq in E.
    exact (NoDup_map_eq _ _ y x (ids_unique C) Iy Ix E). }
  assert (sel : filter (owned_by (Expense.id x) (Expense.user_id x))
                  (expenses d) = [x]).
  { rewrite <- (filter_unique_key (@Expense.id A) (expenses d) x
                  (ids_unique C) Ix).
    apply filter_ext_in. intros y Iy. unfold owned_by.
    destruct (Z.eqb_spec (Expense.id y) (Expense.id x)) as [E|_];
      [|reflexivity].
    rewrite (NoDup_map_eq _ _ y x (ids_unique C) Iy Ix E).
    apply String.eqb_refl. }
  exists {| users := users d;
            expenses :=
              filter (fun y => negb (owned_by (Expense.id x)
                                       (Expense.user_id x) y))
                (expenses d);
            expenses_seq := expenses_seq d |}.
  split; [|split; [|split; [|split]]].
  - unfold delete_expense. rewrite G, range.
    replace (existsb _ (expenses d)) with true; [reflexivity|].
    symmetry. apply existsb_exists. exists x. split; [exact Ix|].
    unfold owned_by. now rewrite Z.eqb_refl, String.eqb_refl.
  - reflexivity.
  - intros y. simpl. rewrite filter_In, negb_true_iff. split.
    + intros [Iy O]. split; [exact Iy|]. intros ->.
      unfold owned_by in O.
      rewrite Z.eqb_refl, String.eqb_refl in O. discriminate.
    + intros [Iy N]. split; [exact Iy|].
      destruct (owned_by _ _ y) eqn:O; [|reflexivity].
      now apply own in O.
  - simpl.
    rewrite (Permutation_split_by
               (owned_by (Expense.id x) (Expense.user_id x)) (expenses d))
      at 1.
    now rewrite sel.
  - unfold delete_expense.
    rewrite (authenticate_users d) by reflexivity. rewrite G, range.
    replace (existsb _ _) with false; [reflexivity|].
    symmetry. apply not_true_is_false. intros EX.
    apply existsb_exists in EX. destruct EX as (y & Iy & O).
    simpl in Iy. apply filter_In in Iy. destruct Iy as [_ N].
    rewrite O in N. discriminate.
Qed.

(** X4: an expense that was just added can be deleted by the same key,
    and then the ledger holds exactly the rows it held before; only the
    counter remembers the id. *)
Theorem add_expense_then_delete (d d1 : db A) (date : string) (amount : A)
  (category api_key subcategory note : string) (id : Z) :
  reachable d ->
  add_expense d date amount category api_key subcategory note
    = (Returned (Added id), d1) ->
  exists d2,
    delete_expense d1 id api_key
      = (Returned (Deleted ("Expense " ++ Text.str id ++ " deleted.")), d2)
    /\ users d2 = users d
    /\ expenses d2 = expenses d
    /\ expenses_seq d2 = expenses_seq d + 1.
Proof.
  intros R H. pose proof (reachable_consistent d R) as C.
  apply add_expense_Added in H.
  destruct H as (uid & G & Lt & Hid & U & S & E & _).
  pose proof (seq_bounded C) as SB.
  pose proof (ids_handed_out C) as B. rewrite Forall_forall in B.
  eexists. split; [|split; [|split]].
  - unfold delete_expense. rewrite (authenticate_users d d1 api_key U), G.
    replace ((id <? - max_rowid - 1) || (max_rowid <? id)) with false
      by (symmetry; apply orb_false_intro; apply Z.ltb_ge;
          unfold max_rowid in *; lia).
    replace (existsb _ (expenses d1)) with true; [reflexivity|].
    symmetry. apply existsb_exists. eexists. split.
    + rewrite E. apply in_or_app. right. now left.
    + unfold owned_by. simpl. now rewrite Z.eqb_refl, String.eqb_refl.
  - exact U.
  - simpl. rewrite E, filter_app. simpl. unfold owned_by at 2. simpl.
    rewrite Z.eqb_refl, String.eqb_refl. simpl. rewrite app_nil_r.
    apply filter_all. intros y Iy. apply negb_true_iff.
    unfold owned_by. specialize (B y Iy).
    destruct (Z.eqb_spec (Expense.id y) id) as [Ey|_]; [lia|reflexivity].
  - simpl. lia.
Qed.

End AddDelete.

(** ** What a call leaves alone *)

Section Frame.

Context {host : Host} {A : Type} {amt : Amount A}.

(** X5: a call that answers with a [StatusError] dictionary or raises
    leaves both tables and the counter as they were; so do
    [list_expenses] and [summarize] whatever they answer. *)
Theorem failed_call_changes_nothing (d : db A) (c : call) :
  (forall message,
     fst (invoke d c) = Returned (StatusError message) ->
     snd (invoke d c) = d)
  /\ (forall e, fst (invoke d c) = Raised e -> snd (invoke d c) = d)
  /\ (forall start_date end_date api_key category,
        snd (list_expenses d start_date end_date api_key) = d
        /\ snd (summarize d start_date end_date api_key category) = d).
Proof.
  split; [|split].
  - intros message. destruct c; simpl.
    + unfold register_user.
      destruct (negb _); [reflexivity|].
      destruct (existsb _ _); [reflexivity|].
      destruct (insert_user _ _); [reflexivity|discriminate].
    + unfold regenerate_api_key.
      destruct (find _ _); [|reflexivity].
      destruct (negb _); [reflexivity|].
      destruct (update_api_key _ _ _ _); [reflexivity|discriminate].
    + unfold add_expense.
      destruct (_authenticate d api_key); [|reflexivity].
      destruct (insert_expense _ _ _ _ _ _ _) as [m|[id d']];
        [reflexivity|discriminate].
    + unfold list_expenses. now destruct (_authenticate d api_key).
    + intros _. apply summarize_snd.
    + unfold delete_expense.
      destruct (_authenticate d api_key); [|reflexivity].
      destruct (_ || _); [reflexivity|].
      destruct (negb _); [reflexivity|discriminate].
  - intros e. destruct c; simpl.
    + unfold register_user.
      destruct (negb _); [reflexivity|].
      destruct (existsb _ _); [reflexivity|].
      destruct (insert_user _ _); [reflexivity|discriminate].
    + unfold regenerate_api_key.
      destruct (find _ _); [|reflexivity].
      destruct (negb _); [reflexivity|].
      destruct (update_api_key _ _ _ _); [reflexivity|discriminate].
    + unfold add_expense.
      destruct (_authenticate d api_key); [|reflexivity].
      destruct (insert_expense _ _ _ _ _ _ _) as [m|[id d']];
        [reflexivity|discriminate].
    + unfold list_expenses. now destruct (_authenticate d api_key).
    + intros _. apply summarize_snd.
    + unfold delete_expense.
      destruct (_authenticate d api_key); [|reflexivity].
      destruct (_ || _); [reflexivity|].
      destruct (negb _); [reflexivity|discriminate].
  - intros start_date end_date api_key category.
    split; [|apply summarize_snd].
    unfold list_expenses. now destruct (_authenticate d api_key).
Qed.

(** The tools that take an [api_key] do not write to [users]. *)
Lemma ledger_call_keeps_users (d : db A) (c : call) (api_key : string) :
  key_of c = Some api_key -> users (snd (invoke d c)) = users d.
Proof.
  destruct c; simpl; try discriminate; intros _.
  - unfold add_expense, insert_expense.
    destruct (_authenticate d api_key0); [|reflexivity].
    destruct (is_nan amount); [reflexivity|].
    now destruct (max_rowid <=? expenses_seq d).
  - unfold list_expenses. now destruct (_authenticate d api_key0).
  - now rewrite summarize_snd.
  - unfold delete_expense.
    destruct (_authenticate d api_key0); [|reflexivity].
    destruct (_ || _); [reflexivity|]. now destruct (negb _).
Qed.

Lemma set_api_key_kept (uid key now : string) (u : User.t) :
  let u' := set_api_key uid key now u in
  User.user_id u' = User.user_id u /\ User.email u' = User.email u
  /\ User.name u' = User.name u
  /\ User.password_hash u' = User.password_hash u
  /\ User.salt u' = User.salt u
  /\ User.registered_at u' = User.registered_at u.
Proof.
  unfold set_api_key.
  destruct (String.eqb (User.user_id u) uid); simpl; repeat split.
Qed.

(** X6: no call deletes an account or changes its [user_id], [email],
    [name], password digest, salt or registration time: every row of
    [users] has, after any call, a row with the same values in these
    columns; and the tools that take an [api_key] leave [users] as it
    was, while [register_user] and [regenerate_api_key] leave [expenses]
    and the counter as they were. *)
Theorem accounts_are_kept (d : db A) (c : call) :
  (forall u, In u (users d) ->
     exists u',
       In u' (users (snd (invoke d c)))
       /\ User.user_id u' = User.user_id u
       /\ User.email u' = User.email u
       /\ User.name u' = User.name u
       /\ User.password_hash u' = User.password_hash u
       /\ User.salt u' = User.salt u
       /\ User.registered_at u' = User.registered_at u)
  /\ match key_of c with
     | Some _ => users (snd (invoke d c)) = users d
     | None => expenses (snd (invoke d c)) = expenses d
               /\ expenses_seq (snd (invoke d c)) = expenses_seq d
     end.
Proof.
  assert (same : forall d' : db A, users d' = users d ->
            forall u, In u (users d) ->
              exists u', In u' (users d')
                /\ User.user_id u' = User.user_id u
                /\ User.email u' = User.email u
                /\ User.name u' = User.name u
                /\ User.password_hash u' = User.password_hash u
                /\ User.salt u' = User.salt u
                /\ User.registered_at u' = User.registered_at u).
  { intros d' E u I. exists u. rewrite E. repeat split. exact I. }
  destruct c; simpl.
  - unfold register_user.
    destruct (negb _); [split; [now apply same | now split]|].
    destruct (existsb _ _); [split; [now apply same | now split]|].
    unfold insert_user.
    repeat (destruct (existsb _ _);
            [split; [now apply same | now split]|]).
    simpl. split; [|now split].
    intros u I. exists u. repeat split. apply in_or_app. now left.
  - unfold regenerate_api_key.
    destruct (find _ _) as [v|]; [|split; [now apply same | now split]].
    destruct (negb _); [split; [now apply same | now split]|].
    unfold update_api_key.
    destruct (existsb _ _); [split; [now apply same | now split]|].
    simpl. split; [|now split].
    intros u I. exists (set_api_key (User.user_id v) (token_urlsafe32 r)
                          (now_iso r) u).
    split; [now apply in_map | apply set_api_key_kept].
  - unfold add_expense, insert_expense.
    destruct (_authenticate d api_key); [|split; [now apply same|reflexivity]].
    destruct (is_nan amount); [split; [now apply same|reflexivity]|].
    destruct (max_rowid <=? expenses_seq d);
      (split; [now apply same|reflexivity]).
  - unfold list_expenses.
    destruct (_authenticate d api_key);
      (split; [now apply same|reflexivity]).
  - rewrite summarize_snd. split; [now apply same|reflexivity].
  - unfold delete_expense.
    destruct (_authenticate d api_key); [|split; [now apply same|reflexivity]].
    destruct (_ || _); [split; [now apply same|reflexivity]|].
    destruct (negb _); (split; [now apply same|reflexivity]).
Qed.

(** Rows of another account pass through the ledger tools of an
    account. *)
Lemma ledger_call_keeps_rows_of_others (d : db A) (c : call)
  (key_a a b : string) (p : Expense.t A -> bool) :
  key_of c = Some key_a ->
  _authenticate d key_a = Ok a ->
  a <> b ->
  (forall x, p x = true -> Expense.user_id x = b) ->
  filter p (expenses (snd (invoke d c))) = filter p (expenses d).
Proof.
  intros K G N P. destruct c; simpl in K; try discriminate;
    injection K as ->; simpl.
  - unfold add_expense, insert_expense. rewrite G.
    destruct (is_nan amount); [reflexivity|].
    destruct (max_rowid <=? expenses_seq d); [reflexivity|]. simpl.
    rewrite filter_app. simpl.
    destruct (p _) eqn:E; [|apply app_nil_r].
    apply P in E. simpl in E. contradiction.
  - unfold list_expenses. now rewrite G.
  - now rewrite summarize_snd.
  - unfold delete_expense. rewrite G.
    destruct (_ || _); [reflexivity|].
    destruct (negb _); [reflexivity|]. simpl.
    apply filter_filter_implied. intros x E. apply P in E.
    apply negb_true_iff. unfold owned_by.
    destruct (String.eqb_spec (Expense.user_id x) a) as [Ea|_];
      [congruence | apply andb_false_r].
Qed.

(** X7: what one account adds or deletes never shows in another
    account's answers.  After any ledger call made with A's key,
    [list_expenses] and [summarize] under B's key return what they
    returned before, for every range and category. *)
Theorem other_accounts_do_not_interfere (d : db A) (c : call)
  (key_a a key_b b : string) :
  key_of c = Some key_a ->
  _authenticate d key_a = Ok a ->
  _authenticate d key_b = Ok b ->
  a <> b ->
  forall start_date end_date category,
    fst (list_expenses (snd (invoke d c)) start_date end_date key_b)
    = fst (list_expenses d start_date end_date key_b)
    /\ fst (summarize (snd (invoke d c)) start_date end_date key_b
              category)
       = fst (summarize d start_date end_date key_b category).
Proof.
  intros K Ga Gb N start_date end_date category.
  assert (U : users (snd (invoke d c)) = users d).
  { exact (ledger_call_keeps_users d c key_a K). }
  assert (user_of_range : forall x : Expense.t A,
            in_range b start_date end_date x = true ->
            Expense.user_id x = b).
  { intros x E. unfold in_range in E. apply andb_true_iff in E.
    now apply String.eqb_eq. }
  unfold list_expenses, summarize, select_expenses, select_summary.
  rewrite (authenticate_users d _ key_b U), Gb. simpl. split.
  - now rewrite (ledger_call_keeps_rows_of_others d c key_a a b _ K Ga N
                   user_of_range).
  - rewrite (ledger_call_keeps_rows_of_others d c key_a a b
               (summary_where b start_date end_date category) K Ga N).
    + now destruct (sum_items _ _ _).
    + intros x E. unfold summary_where in E. apply andb_true_iff in E.
      now apply user_of_range.
Qed.

End Frame.

(** ** Accounts and their keys *)

Lemma find_snoc {T} (p : T -> bool) (l : list T) (x : T) :
  existsb p l = false ->
  find p (l ++ [x]) = if p x then Some x else None.
Proof.
  induction l as [|y l IH]; simpl; [reflexivity|].
  intros H. apply orb_false_elim in H. destruct H as [Hy Hl].
  rewrite Hy. now apply IH.
Qed.

Section Accounts.

Context {host : Host} {A : Type} {amt : Amount A}.

(** The row a successful registration stores, and the tests it passed. *)
Lemma register_user_row (d d' : db A) (r : draws)
  (email name password key uid shown_name shown_email : string) :
  register_user d r email name password
    = (Returned (Registered key uid shown_name shown_email), d') ->
  let u := {| User.user_id := "user_" ++ token_hex8 r;
              User.api_key := token_urlsafe32 r;
              User.email := str_lower email; User.name := name;
              User.password_hash :=
                _hash_password password (token_hex16 r);
              User.salt := token_hex16 r;
              User.registered_at := now_iso r;
              User.api_key_regen_at := None |} in
  d' = {| users := users d ++ [u]; expenses := expenses d;
          expenses_seq := expenses_seq d |}
  /\ key = token_urlsafe32 r /\ uid = "user_" ++ token_hex8 r
  /\ existsb (same_email email) (users d) = false
  /\ ~ In uid (map User.user_id (users d))
  /\ ~ In key (map User.api_key (users d)).
Proof.
  unfold register_user.
  destruct (negb _); [discriminate|].
  destruct (existsb (same_email email) (users d)) eqn:D; [discriminate|].
  unfold insert_user. simpl.
  destruct (existsb _ (users d)) eqn:E1 in |- *; [discriminate|].
  destruct (existsb _ (users d)) eqn:E2 in |- *; [discriminate|].
  destruct (existsb _ (users d)) eqn:E3 in |- *; [discriminate|].
  intros H. injection H as <- <- <- <- <-.
  repeat split.
  - now apply existsb_eqb_false.
  - now apply existsb_eqb_false.
Qed.

(** X8: in a reachable state, the key a successful [register_user]
    returns authenticates as the [user_id] it returns, that [user_id] and
    key were held by no account before, and every key that authenticated
    before still authenticates as the same account. *)
Theorem register_user_then_authenticate (d d' : db A) (r : draws)
  (email name password key uid shown_name shown_email : string) :
  reachable d ->
  token_urlsafe32 r <> "" ->
  register_user d r email name password
    = (Returned (Registered key uid shown_name shown_email), d') ->
  _authenticate d' key = Ok uid
  /\ ~ In uid (map User.user_id (users d))
  /\ ~ In key (map User.api_key (users d))
  /\ forall key0 uid0,
       _authenticate d key0 = Ok uid0 -> _authenticate d' key0 = Ok uid0.
Proof.
  intros R T H.
  assert (R' : reachable d').
  { replace d' with (snd (invoke d (Register r email name password)))
      by (simpl; now rewrite H).
    now apply reach_invoke. }
  pose proof (reachable_consistent d' R') as C'.
  destruct (register_user_row _ _ _ _ _ _ _ _ _ _ H)
    as (Ed & Ek & Eu & _ & Nu & Nk).
  split; [|split; [exact Nu|split; [exact Nk|]]].
  - rewrite Ek, Eu.
    apply (authenticate_row d'
             {| User.user_id := "user_" ++ token_hex8 r;
                User.api_key := token_urlsafe32 r;
                User.email := str_lower email; User.name := name;
                User.password_hash :=
                  _hash_password password (token_hex16 r);
                User.salt := token_hex16 r;
                User.registered_at := now_iso r;
                User.api_key_regen_at := None |} C').
    rewrite Ed. simpl. apply in_or_app. right. now left.
  - intros key0 uid0 G. apply authenticate_Ok in G.
    destruct G as (_ & u & I & <- & <-).
    apply (authenticate_row d' u C').
    rewrite Ed. simpl. apply in_or_app. now left.
Qed.

(** X9: a rotation touches one account.  In a reachable state, after a
    successful [regenerate_api_key] for one account every key of another
    account authenticates as before, and the rotated account keeps its
    [user_id], [email], [name], password digest and salt. *)
Theorem regenerate_api_key_keeps_other_accounts (d d' : db A) (r : draws)
  (email password new_key uid : string) :
  reachable d ->
  regenerate_api_key d r email password
    = (Returned (Regenerated new_key uid), d') ->
  (forall key0 uid0,
     _authenticate d key0 = Ok uid0 -> uid0 <> uid ->
     _authenticate d' key0 = Ok uid0)
  /\ (forall u, In u (users d) -> User.user_id u <> uid ->
        In u (users d'))
  /\ (forall u, In u (users d) -> User.user_id u = uid ->
        In {| User.user_id := User.user_id u; User.api_key := new_key;
              User.email := User.email u; User.name := User.name u;
              User.password_hash := User.password_hash u;
              User.salt := User.salt u;
              User.registered_at := User.registered_at u;
              User.api_key_regen_at := Some (now_iso r) |} (users d')).
Proof.
  intros R H. pose proof (reachable_consistent d R) as C.
  apply regenerate_api_key_Regenerated in H.
  destruct H as (Hk & _ & EX & Hu).
  assert (other : forall u, In u (users d) -> User.user_id u <> uid ->
                            In u (users d')).
  { intros u I N. rewrite Hu. apply in_map_iff. exists u.
    split; [|exact I]. unfold set_api_key.
    now destruct (String.eqb_spec (User.user_id u) uid). }
  split; [|split; [exact other|]].
  - intros key0 uid0 G N. apply authenticate_Ok in G.
    destruct G as (Ne & u0 & I0 & K0 & U0).
    unfold _authenticate.
    destruct (String.eqb_spec key0 "") as [|_]; [contradiction|].
    destruct (find_witness (fun v => String.eqb (User.api_key v) key0)
                (users d') u0) as [w F].
    { apply other; congruence. }
    { rewrite K0. apply String.eqb_refl. }
    rewrite F. apply find_some in F. destruct F as [Iw Ew].
    apply String.eqb_eq in Ew. rewrite Hu in Iw. apply in_map_iff in Iw.
    destruct Iw as (v & <- & Iv). rewrite set_api_key_user_id.
    rewrite set_api_key_key in Ew.
    destruct (String.eqb_spec (User.user_id v) uid) as [Ev|Nv].
    + exfalso. apply (existsb_false_In _ _ u0) in EX; [|exact I0].
      simpl in EX. assert (N0 : User.user_id u0 <> uid) by congruence.
      apply String.eqb_neq in N0.
      rewrite N0, K0, <- Ew, String.eqb_refl in EX. discriminate.
    + assert (E : v = u0)
        by (apply (NoDup_map_eq _ _ v u0 (api_keys_unique C) Iv I0);
            congruence).
      now rewrite E, U0.
  - intros u I E. rewrite Hu. apply in_map_iff. exists u.
    split; [|exact I]. unfold set_api_key.
    destruct (String.eqb_spec (User.user_id u) uid); [reflexivity|].
    contradiction.
Qed.

(** X10: a rotation is granted only on the password.  Whenever
    [regenerate_api_key] succeeds, some account whose stored email equals
    the given one under [LOWER] has the returned [user_id], and the
    digest of the given password under that account's salt is the stored
    digest. *)
Theorem regenerate_api_key_checks_password (d d' : db A) (r : draws)
  (email password new_key uid : string) :
  regenerate_api_key d r email password
    = (Returned (Regenerated new_key uid), d') ->
  exists u,
    In u (users d)
    /\ User.user_id u = uid
    /\ Text.LOWER (User.email u) = Text.LOWER email
    /\ _hash_password password (User.salt u) = User.password_hash u.
Proof.
  unfold regenerate_api_key.
  destruct (find _ _) as [u|] eqn:F; [|discriminate].
  destruct (String.eqb_spec (_hash_password password (User.salt u))
              (User.password_hash u)) as [E|_]; [|discriminate].
  simpl. destruct (update_api_key _ _ _ _); [discriminate|].
  intros H. injection H as _ <- _.
  apply find_some in F. destruct F as [I S].
  exists u. repeat split; try assumption.
  now apply String.eqb_eq.
Qed.

(** X11: after a successful registration, [regenerate_api_key] with the
    same email and password, and a drawn key that no earlier account
    holds, returns the drawn key for the same [user_id], provided
    [LOWER] sees the stored email and the given one as equal (as for
    every email of ASCII characters); with a password whose digest under
    the account's salt differs it answers "Incorrect password." and
    changes nothing. *)
Theorem register_user_then_regenerate (d d1 : db A) (r1 r2 : draws)
  (email name password key uid shown_name shown_email : string) :
  register_user d r1 email name password
    = (Returned (Registered key uid shown_name shown_email), d1) ->
  Text.LOWER (str_lower email) = Text.LOWER email ->
  (forall u, In u (users d) -> User.api_key u <> token_urlsafe32 r2) ->
  (exists d2,
     regenerate_api_key d1 r2 email password
     = (Returned (Regenerated (token_urlsafe32 r2) uid), d2))
  /\ forall other,
       _hash_password other (token_hex16 r1)
       <> _hash_password password (token_hex16 r1) ->
       regenerate_api_key d1 r2 email other
       = (Returned (StatusError "Incorrect password."), d1).
Proof.
  intros H L Fresh.
  destruct (register_user_row _ _ _ _ _ _ _ _ _ _ H)
    as (Ed & Ek & Eu & D & Nu & Nk).
  assert (F : forall pw,
            regenerate_api_key d1 r2 email pw
            = if negb (String.eqb (_hash_password pw (token_hex16 r1))
                         (_hash_password password (token_hex16 r1)))
              then (Returned (StatusError "Incorrect password."), d1)
              else match update_api_key d1 uid (token_urlsafe32 r2)
                           (now_iso r2) with
                   | inl e => (Returned (StatusError ("Error: " ++ e)), d1)
                   | inr d2 =>
                       (Returned (Regenerated (token_urlsafe32 r2) uid), d2)
                   end).
  { intros pw. unfold regenerate_api_key. rewrite Ed at 1. simpl users.
    rewrite (find_snoc _ _ _ D). unfold same_email at 1. simpl User.email.
    rewrite L, String.eqb_refl. simpl. now rewrite Eu. }
  split.
  - rewrite F, String.eqb_refl. simpl. unfold update_api_key.
    replace (existsb _ (users d1)) with false; [eexists; reflexivity|].
    symmetry. apply not_true_is_false. intros EX.
    apply existsb_exists in EX. destruct EX as (v & Iv & P).
    apply andb_true_iff in P. destruct P as [P1 P2].
    apply negb_true_iff in P1. apply String.eqb_neq in P1.
    apply String.eqb_eq in P2.
    rewrite Ed in Iv. simpl in Iv. apply in_app_or in Iv.
    destruct Iv as [Iv|[<-|[]]].
    + now apply (Fresh v Iv).
    + apply P1. rewrite Eu. reflexivity.
  - intros other N. rewrite F.
    apply String.eqb_neq in N. now rewrite N.
Qed.

(** X12: when [LOWER] does not see the stored email and the given one as
    equal (a capital letter outside ASCII that [str.lower] folded), the
    account that was just registered cannot rotate its key with the
    email it registered: [regenerate_api_key] answers
    "Email not found." for every password. *)
Theorem register_user_then_email_not_found (d d1 : db A) (r1 r2 : draws)
  (email name password key uid shown_name shown_email other : string) :
  register_user d r1 email name password
    = (Returned (Registered key uid shown_name shown_email), d1) ->
  Text.LOWER (str_lower email) <> Text.LOWER email ->
  regenerate_api_key d1 r2 email other
  = (Returned (StatusError "Email not found."), d1).
Proof.
  intros H L.
  destruct (register_user_row _ _ _ _ _ _ _ _ _ _ H)
    as (Ed & _ & _ & D & _ & _).
  unfold regenerate_api_key. rewrite Ed at 1. simpl users.
  rewrite (find_snoc _ _ _ D). unfold same_email at 1. simpl User.email.
  apply String.eqb_neq in L. now rewrite L.
Qed.

(** X13: in every reachable state no two accounts share a [user_id], an
    [api_key] or a stored [email], no [api_key] is empty, no two expenses
    share an id, every expense id lies between 1 and the counter, and
    the counter does not exceed the largest rowid. *)
Theorem reachable_tables_keep_their_constraints (d : db A) :
  reachable d ->
  NoDup (map User.user_id (users d))
  /\ NoDup (map User.api_key (users d))
  /\ NoDup (map User.email (users d))
  /\ (forall u, In u (users d) -> User.api_key u <> "")
  /\ NoDup (map (@Expense.id A) (expenses d))
  /\ (forall x, In x (expenses d) ->
        1 <= Expense.id x <= expenses_seq d)
  /\ expenses_seq d <= max_rowid.
Proof.
  intros R. destruct (reachable_consistent d R)
    as [NU NK NE KE NI IH SB].
  rewrite Forall_forall in KE, IH.
  repeat split; try assumption.
  - now apply IH.
  - now apply IH.
  - lia.
Qed.

End Accounts.

(** ** The breakdown of [summarize] *)

Lemma distinct_constant (l : list string) (c : string) :
  l <> [] -> (forall y, In y l -> y = c) -> distinct l = [c].
Proof.
  destruct l as [|a l]; [congruence|]. intros _ H. simpl.
  rewrite (H a (or_introl eq_refl)). f_equal.
  apply filter_none. intros y I. apply (proj1 (distinct_In _ _)) in I.
  rewrite (H y (or_intror I)), String.eqb_refl. reflexivity.
Qed.

Lemma filter_map_swap {T U} (f : T -> U) (p : U -> bool) (l : list T) :
  filter p (map f l) = map f (filter (fun x => p (f x)) l).
Proof.
  induction l as [|x l IH]; simpl; [reflexivity|].
  destruct (p (f x)); simpl; now rewrite IH.
Qed.

Lemma Permutation_filter_same {T} (p : T -> bool) (l l' : list T) :
  Permutation l l' -> Permutation (filter p l) (filter p l').
Proof.
  induction 1 as [|x l l' P IH|x y l|l l' l'' P1 IH1 P2 IH2]; simpl.
  - constructor.
  - destruct (p x); [now apply perm_skip | exact IH].
  - destruct (p x), (p y); try reflexivity. apply perm_swap.
  - now transitivity (filter p l').
Qed.

Lemma filter_andb {T} (p q : T -> bool) (l : list T) :
  filter q (filter p l) = filter (fun x => p x && q x) l.
Proof.
  induction l as [|x l IH]; simpl; [reflexivity|].
  destruct (p x); simpl; [|exact IH]. destruct (q x); now rewrite IH.
Qed.

Lemma existsb_none {T} (p : T -> bool) (l : list T) :
  (forall x, p x = false) -> existsb p l = false.
Proof.
  intros H. induction l as [|x l IH]; simpl; [reflexivity|].
  now rewrite H, IH.
Qed.

(** *** The scan and the listing *)

Section Scan.

Context {A : Type} {amt : Amount A}.

Lemma date_id_asc_desc (x y : Expense.t A) :
  date_id_asc x y = date_id_desc y x.
Proof.
  unfold date_id_asc, date_id_desc.
  now rewrite (String.eqb_sym (Expense.date y)).
Qed.

Lemma date_id_desc_antisym (x y : Expense.t A) :
  date_id_desc x y = true -> date_id_desc y x = true ->
  Expense.id x = Expense.id y.
Proof.
  unfold date_id_desc. intros H1 H2.
  apply orb_true_iff in H1. apply orb_true_iff in H2.
  destruct H1 as [L1|E1], H2 as [L2|E2].
  - pose proof (string_ltb_trans _ _ _ L1 L2) as L.
    rewrite string_ltb_irrefl in L. discriminate.
  - apply andb_true_iff in E2. destruct E2 as [D _].
    apply String.eqb_eq in D.
    rewrite D, string_ltb_irrefl in L1. discriminate.
  - apply andb_true_iff in E1. destruct E1 as [D _].
    apply String.eqb_eq in D.
    rewrite D, string_ltb_irrefl in L2. discriminate.
  - apply andb_true_iff in E1. apply andb_true_iff in E2.
    destruct E1 as [_ I1], E2 as [_ I2].
    apply Z.leb_le in I1. apply Z.leb_le in I2. lia.
Qed.

(** The scan of [summarize] meets the rows that [list_expenses] returns,
    from the last one to the first. *)
Lemma scan_of_listing (d : db A) (uid start_date end_date : string)
  (q : Expense.t A -> bool) :
  consistent d ->
  order_by date_id_asc
    (filter (fun x => in_range uid start_date end_date x && q x)
       (expenses d))
  = rev (filter q (select_expenses d uid start_date end_date)).
Proof.
  intros C.
  set (E := filter (fun x => in_range uid start_date end_date x && q x)
              (expenses d)).
  assert (P1 : Permutation (order_by date_id_asc E) E)
    by apply order_by_perm.
  assert (P2 : Permutation
                 (rev (filter q
                         (select_expenses d uid start_date end_date))) E).
  { eapply Permutation_trans; [apply Permutation_sym, Permutation_rev|].
    unfold E. rewrite <- filter_andb.
    apply Permutation_filter_same. apply select_expenses_perm. }
  assert (N : NoDup (map (@Expense.id A) E)).
  { apply NoDup_map_filter. apply (ids_unique C). }
  apply StronglySorted_unique
    with (R := fun a b => date_id_asc a b = true
                          /\ Expense.id a <> Expense.id b).
  - intros x y [H1 N1] [H2 _]. apply N1.
    rewrite date_id_asc_desc in H1, H2.
    now apply date_id_desc_antisym.
  - eapply Permutation_trans; [exact P1|]. now apply Permutation_sym.
  - apply StronglySorted_strict.
    + apply order_by_sorted.
      * intros x y. rewrite !date_id_asc_desc. apply date_id_desc_total.
      * intros x y z. rewrite !date_id_asc_desc. intros H1 H2.
        now apply date_id_desc_trans with y.
    + apply (Permutation_NoDup
               (Permutation_map _ (Permutation_sym P1))). exact N.
  - apply StronglySorted_impl
      with (R := fun a b => date_id_desc b a = true
                            /\ Expense.id b <> Expense.id a).
    + intros a b [H Nab]. rewrite date_id_asc_desc.
      split; [exact H|congruence].
    + apply (StronglySorted_rev
               (fun a b => date_id_desc a b = true
                           /\ Expense.id a <> Expense.id b)).
      apply StronglySorted_filter. apply StronglySorted_strict.
      * apply order_by_sorted;
          [apply date_id_desc_total | apply date_id_desc_trans].
      * apply (Permutation_NoDup
                 (Permutation_map _
                    (Permutation_sym (select_expenses_perm _ _ _ _)))).
        apply NoDup_map_filter. apply (ids_unique C).
Qed.

End Scan.

(** *** Sums *)

Section Sums.

Context {A : Type} {amt : Amount A}.

Lemma sum_items_numbers (l : list A) (acc : A) (is_int : bool) :
  sum_items acc is_int (map Some l) = inr (fold_left add l acc).
Proof.
  revert acc is_int. induction l as [|x l IH]; intros acc is_int; simpl;
    [reflexivity|apply IH].
Qed.

Lemma sum_items_None (items : list (option A)) (acc : A) (is_int : bool) :
  In None items ->
  exists b : bool,
    sum_items acc is_int items
    = inl ("unsupported operand type(s) for +: '"
           ++ (if b then "int" else "float") ++ "' and 'NoneType'").
Proof.
  revert acc is_int.
  induction items as [|[x|] items IH]; intros acc is_int I.
  - destruct I.
  - destruct I as [E|I]; [discriminate|]. now apply IH.
  - now exists is_int.
Qed.

Lemma sum_items_inr (items : list (option A)) (acc t : A)
  (is_int : bool) :
  sum_items acc is_int items = inr t -> ~ In None items.
Proof.
  intros H I. destruct (sum_items_None items acc is_int I) as [b E].
  rewrite E in H. discriminate.
Qed.

(** The two messages of the TypeError, as [summarize] reports them. *)
Lemma none_type_error (b : bool) :
  "Error: " ++ "unsupported operand type(s) for +: '"
     ++ (if b then "int" else "float") ++ "' and 'NoneType'"
  = (if b
     then "Error: unsupported operand type(s) for +: 'int' and 'NoneType'"
     else
       "Error: unsupported operand type(s) for +: 'float' and 'NoneType'").
Proof. now destruct b. Qed.

(** The groups that are fetched are those of the categories met. *)
Lemma fetched_perm (rows : list (Expense.t A)) :
  Permutation (order_by_total_desc (group_by_category rows))
    (map (group_of rows) (distinct (map (@Expense.category A) rows))).
Proof.
  unfold order_by_total_desc, group_by_category.
  eapply Permutation_trans; [apply Permutation_sym, Permutation_rev|].
  eapply Permutation_trans; [apply order_by_perm|].
  apply Permutation_map. apply order_by_perm.
Qed.

Lemma fetched_categories (rows : list (Expense.t A)) :
  Permutation
    (map (@s_category (option A))
       (order_by_total_desc (group_by_category rows)))
    (distinct (map (@Expense.category A) rows)).
Proof.
  eapply Permutation_trans; [apply Permutation_map, fetched_perm|].
  rewrite map_map. simpl. now rewrite map_id.
Qed.

Lemma fetched_In (rows : list (Expense.t A))
  (g : summary_dict (option A)) :
  In g (order_by_total_desc (group_by_category rows))
  <-> exists c, In c (map (@Expense.category A) rows)
                /\ g = group_of rows c.
Proof.
  split.
  - intros I. apply (Permutation_in _ (fetched_perm rows)) in I.
    apply in_map_iff in I. destruct I as (c & <- & I).
    exists c. split; [now apply distinct_In|reflexivity].
  - intros (c & I & ->).
    apply (Permutation_in _ (Permutation_sym (fetched_perm rows))).
    apply in_map. now apply distinct_In.
Qed.

(** The sum and the size of a group, read off the listing. *)
Lemma category_sum_scan (l : list (Expense.t A)) (c : string) :
  category_sum (map to_dict l) c
  = fold_left add
      (map (@Expense.amount A)
         (filter (fun x => String.eqb (Expense.category x) c) (rev l)))
      zero.
Proof.
  unfold category_sum, category_rows.
  rewrite filter_map_swap, <- map_rev, map_map, filter_rev. reflexivity.
Qed.

Lemma category_rows_scan (l : list (Expense.t A)) (c : string) :
  List.length (category_rows (map to_dict l) c)
  = List.length
      (filter (fun x => String.eqb (Expense.category x) c) (rev l)).
Proof.
  unfold category_rows.
  now rewrite filter_map_swap, length_map, filter_rev, length_rev.
Qed.

Lemma list_expenses_rows (d : db A) (start_date end_date key uid : string) :
  _authenticate d key = Ok uid ->
  let rows := map to_dict (select_expenses d uid start_date end_date) in
  list_expenses d start_date end_date key
  = (Returned (Listing (List.length rows) rows), d).
Proof. intros G. unfold list_expenses. now rewrite G. Qed.

(** What [summarize] answers, in terms of the rows [sel] of the listing
    that the [category] argument selects. *)
Lemma summarize_fetched (d : db A) (start_date end_date key uid : string)
  (category : option string) (q : Expense.t A -> bool) :
  consistent d ->
  _authenticate d key = Ok uid ->
  (forall x, summary_where uid start_date end_date category x
             = in_range uid start_date end_date x && q x) ->
  let sel :=
    map to_dict (filter q (select_expenses d uid start_date end_date)) in
  if some_sum_is_nan sel
  then
    exists b : bool,
      summarize d start_date end_date key category
      = (Returned (StatusError
           (if b
            then
              "Error: unsupported operand type(s) for +: 'int' and 'NoneType'"
            else
              "Error: unsupported operand type(s) for +: 'float' and 'NoneType'")),
         d)
  else
    exists summary,
      summarize d start_date end_date key category
      = (Returned
           (Summary (builtin_sum (map (@s_total_amount A) summary))
              summary), d)
      /\ NoDup (map (@s_category A) summary)
      /\ (forall c, In c (map (@s_category A) summary)
                    <-> In c (map (@d_category A) sel))
      /\ forall g, In g summary ->
           s_total_amount g = category_sum sel (s_category g)
           /\ s_count g = List.length (category_rows sel (s_category g)).
Proof.
  intros C G W sel.
  set (L := filter q (select_expenses d uid start_date end_date)) in *.
  assert (F : select_summary d uid start_date end_date category
              = order_by_total_desc (group_by_category (rev L))).
  { unfold select_summary. rewrite (filter_ext _ _ W).
    now rewrite scan_of_listing. }
  assert (tot : forall c,
            s_total_amount (group_of (rev L) c)
            = if is_nan (category_sum sel c) then None
              else Some (category_sum sel c)).
  { intros c. unfold sel. rewrite category_sum_scan. reflexivity. }
  assert (cnt : forall c,
            s_count (group_of (rev L) c)
            = List.length (category_rows sel c)).
  { intros c. unfold sel. now rewrite category_rows_scan. }
  assert (cats : forall c,
            In c (map (@Expense.category A) (rev L))
            <-> In c (map (@d_category A) sel)).
  { intros c. unfold sel. rewrite map_map. simpl.
    rewrite map_rev. symmetry. apply in_rev. }
  unfold summarize. rewrite G, F.
  set (fetched := order_by_total_desc (group_by_category (rev L))).
  destruct (some_sum_is_nan sel) eqn:N.
  - unfold some_sum_is_nan in N. apply existsb_exists in N.
    destruct N as (c & Ic & Nc).
    destruct (sum_items_None (map (@s_total_amount (option A)) fetched)
                zero true) as [b Hb].
    { apply in_map_iff. exists (group_of (rev L) c). split.
      - now rewrite tot, Nc.
      - apply fetched_In. exists c. split; [now apply cats|reflexivity]. }
    exists b. rewrite Hb. now rewrite none_type_error.
  - assert (num : forall g, In g fetched ->
              In (s_category g) (map (@d_category A) sel)
              /\ s_total_amount g = Some (category_sum sel (s_category g))
              /\ s_count g
                 = List.length (category_rows sel (s_category g))).
    { intros g I. apply fetched_In in I. destruct I as (c & Ic & ->).
      apply cats in Ic. simpl s_category. split; [exact Ic|]. split.
      - rewrite tot.
        now rewrite (existsb_false_In _ _ c N Ic).
      - apply cnt. }
    assert (E : map (@s_total_amount (option A)) fetched
                = map Some (map (@s_total_amount A)
                              (map number_row fetched))).
    { rewrite !map_map. apply map_ext_in. intros g I.
      destruct (num g I) as (_ & T & _). simpl. now rewrite T. }
    rewrite E, sum_items_numbers.
    exists (map number_row fetched).
    assert (names : map (@s_category A) (map number_row fetched)
                    = map (@s_category (option A)) fetched).
    { rewrite map_map. reflexivity. }
    split; [reflexivity|]. split; [|split].
    + rewrite names.
      apply (Permutation_NoDup
               (Permutation_sym (fetched_categories (rev L)))).
      apply distinct_NoDup.
    + intros c. rewrite names. split; intros I.
      * apply cats. apply distinct_In.
        apply (Permutation_in _ (fetched_categories (rev L))). exact I.
      * apply (Permutation_in _
                 (Permutation_sym (fetched_categories (rev L)))).
        apply distinct_In. now apply cats.
    + intros g I. apply in_map_iff in I. destruct I as (g0 & <- & I0).
      destruct (num g0 I0) as (_ & T & Cn). simpl.
      rewrite T. split; [reflexivity|exact Cn].
Qed.

(** Without a [category] argument, or with the empty text, the rows
    selected are those of the listing. *)
Lemma summarize_unfiltered (d : db A)
  (start_date end_date key uid : string) (category : option string) :
  consistent d ->
  _authenticate d key = Ok uid ->
  category = None \/ category = Some "" ->
  let rows := map to_dict (select_expenses d uid start_date end_date) in
  if some_sum_is_nan rows
  then
    exists b : bool,
      summarize d start_date end_date key category
      = (Returned (StatusError
           (if b
            then
              "Error: unsupported operand type(s) for +: 'int' and 'NoneType'"
            else
              "Error: unsupported operand type(s) for +: 'float' and 'NoneType'")),
         d)
  else
    exists summary,
      summarize d start_date end_date key category
      = (Returned
           (Summary (builtin_sum (map (@s_total_amount A) summary))
              summary), d)
      /\ NoDup (map (@s_category A) summary)
      /\ (forall c, In c (map (@s_category A) summary)
                    <-> In c (map (@d_category A) rows))
      /\ forall g, In g summary ->
           s_total_amount g = category_sum rows (s_category g)
           /\ s_count g = List.length (category_rows rows (s_category g)).
Proof.
  intros C G U.
  pose proof (summarize_fetched d start_date end_date key uid category
                (fun _ => true) C G) as H.
  rewrite filter_all in H by reflexivity.
  apply H. intros x. unfold summary_where.
  destruct U as [->| ->]; reflexivity.
Qed.

(** With a [category] argument that is not empty, the rows selected are
    those of the listing with that category. *)
Lemma summarize_filtered (d : db A)
  (start_date end_date key uid c : string) :
  consistent d ->
  _authenticate d key = Ok uid ->
  c <> "" ->
  let rows := map to_dict (select_expenses d uid start_date end_date) in
  let sel := category_rows rows c in
  if some_sum_is_nan sel
  then
    exists b : bool,
      summarize d start_date end_date key (Some c)
      = (Returned (StatusError
           (if b
            then
              "Error: unsupported operand type(s) for +: 'int' and 'NoneType'"
            else
              "Error: unsupported operand type(s) for +: 'float' and 'NoneType'")),
         d)
  else
    exists summary,
      summarize d start_date end_date key (Some c)
      = (Returned
           (Summary (builtin_sum (map (@s_total_amount A) summary))
              summary), d)
      /\ NoDup (map (@s_category A) summary)
      /\ (forall c', In c' (map (@s_category A) summary)
                     <-> In c' (map (@d_category A) sel))
      /\ forall g, In g summary ->
           s_total_amount g = category_sum sel (s_category g)
           /\ s_count g = List.length (category_rows sel (s_category g)).
Proof.
  intros C G N rows sel.
  pose proof (summarize_fetched d start_date end_date key uid (Some c)
                (fun x => String.eqb (Expense.category x) c) C G) as H.
  assert (E : sel
              = map to_dict
                  (filter (fun x => String.eqb (Expense.category x) c)
                     (select_expenses d uid start_date end_date))).
  { unfold sel, rows, category_rows. apply filter_map_swap. }
  clearbody sel. subst sel.
  apply H. intros x. unfold summary_where.
  apply String.eqb_neq in N. now rewrite N.
Qed.

(** The groups come by strictly ascending category. *)
Lemma group_by_category_sorted (rows : list (Expense.t A)) :
  StronglySorted
    (fun g h => String.ltb (s_category g) (s_category h) = true)
    (group_by_category rows).
Proof.
  unfold group_by_category. apply StronglySorted_map.
  apply StronglySorted_impl
    with (R := fun a b => String.leb a b = true /\ a <> b).
  - intros a b [L N]. simpl. now apply string_leb_ltb.
  - apply (StronglySorted_strict (fun c : string => c)).
    + apply order_by_sorted;
        [apply string_leb_false | apply string_leb_trans].
    + rewrite map_id.
      apply (Permutation_NoDup (Permutation_sym (order_by_perm _ _ _))).
      apply distinct_NoDup.
Qed.

(** The order of the breakdown: larger totals first and, of two groups
    with the same total, the later category first; no total is NaN. *)
Lemma summarize_order (d : db A)
  (start_date end_date api_key uid : string) (category : option string) :
  (forall x y : A,
     is_nan x = false -> is_nan y = false ->
     leb x y = false -> leb y x = true) ->
  (forall x y z : A,
     is_nan x = false -> is_nan y = false -> is_nan z = false ->
     leb x y = true -> leb y z = true -> leb x z = true) ->
  _authenticate d api_key = Ok uid ->
  match fst (summarize d start_date end_date api_key category) with
  | Returned (Summary _ summary) =>
      StronglySorted
        (fun g h =>
           leb (s_total_amount h) (s_total_amount g) = true
           /\ (leb (s_total_amount g) (s_total_amount h) = true ->
               String.ltb (s_category h) (s_category g) = true))
        summary
      /\ Forall (fun g => is_nan (s_total_amount g) = false) summary
  | Returned (StatusError _) => True
  | _ => False
  end.
Proof.
  intros total trans G. unfold summarize. rewrite G.
  unfold select_summary.
  set (S := order_by date_id_asc _).
  destruct (sum_items _ _ _) as [m|t] eqn:E; simpl; [exact I|].
  apply sum_items_inr in E.
  set (P := fun g : summary_dict (option A) =>
              match s_total_amount g with
              | Some x => is_nan x = false
              | None => True
              end).
  assert (PS : Forall P (group_by_category S)).
  { apply Forall_forall. intros g Ig. unfold group_by_category in Ig.
    apply in_map_iff in Ig. destruct Ig as (c & <- & _).
    unfold P, group_of, SUM. simpl.
    now destruct (is_nan (fold_left add _ zero)) eqn:N. }
  assert (PF : Forall P (order_by_total_desc (group_by_category S))).
  { unfold order_by_total_desc.
    apply (Permutation_Forall (Permutation_rev _)).
    now apply (Permutation_Forall
                 (Permutation_sym (order_by_perm _ _ _))). }
  assert (numbers : forall g,
            In g (order_by_total_desc (group_by_category S)) ->
            exists x, s_total_amount g = Some x /\ is_nan x = false).
  { intros g Ig. rewrite Forall_forall in PF. specialize (PF g Ig).
    unfold P in PF. destruct (s_total_amount g) as [x|] eqn:T.
    - now exists x.
    - exfalso. apply E. rewrite <- T. now apply in_map. }
  split.
  - apply StronglySorted_map.
    apply StronglySorted_impl_in
      with (R := fun a b =>
                   total_asc b a = true
                   /\ (total_asc a b = true ->
                       String.ltb (s_category b) (s_category a) = true)).
    + intros a b Ia Ib [H1 H2]. unfold total_asc in H1, H2.
      destruct (numbers a Ia) as (x & Tx & _).
      destruct (numbers b Ib) as (y & Ty & _).
      rewrite Tx, Ty in H1, H2. simpl. now rewrite Tx, Ty.
    + unfold order_by_total_desc.
      apply (StronglySorted_rev
               (fun a b =>
                  total_asc a b = true
                  /\ (total_asc b a = true ->
                      String.ltb (s_category a) (s_category b) = true))).
      apply order_by_stable_on with (P := P); [| |exact PS|].
      * intros a b. unfold P, total_asc.
        destruct (s_total_amount a), (s_total_amount b);
          auto; discriminate.
      * intros a b c. unfold P, total_asc.
        destruct (s_total_amount a), (s_total_amount b),
          (s_total_amount c); auto; try discriminate.
        intros Na Nb Nc. now apply trans.
      * apply group_by_category_sorted.
  - apply Forall_map. apply Forall_forall. intros g Ig.
    destruct (numbers g Ig) as (x & T & N). simpl. now rewrite T.
Qed.

End Sums.

(** With exact addition, adding up group by group is adding up the
    listing. *)
Lemma exact_total {A : Type} {amt : Amount A} {exact : @ExactAmount A amt}
  (rows : list (expense_dict A)) (cs : list string) :
  NoDup cs ->
  (forall r, In r rows -> In (d_category r) cs) ->
  builtin_sum (map (category_sum rows) cs)
  = builtin_sum (map (@d_amount A) rows).
Proof.
  intros ND cover. unfold builtin_sum.
  rewrite !(fold_left_from_e _ add zero add_assoc add_comm add_zero_l).
  rewrite <- (group_by_total _ _ add zero add_assoc add_comm add_zero_l
                (@d_category A) (@d_amount A) cs rows ND cover).
  f_equal. apply map_ext. intros c. unfold category_sum, category_rows.
  rewrite (fold_left_from_e _ add zero add_assoc add_comm add_zero_l).
  apply (fold_right_perm _ add zero add_assoc add_comm).
  apply Permutation_map. apply Permutation_sym. apply Permutation_rev.
Qed.

Section Breakdown.

Context {host : Host} {A : Type} {amt : Amount A}.

(** C3, amended: in every reachable state and for an authenticated
    account, let [rows] be what [list_expenses] returns for a range.  If
    for some category of [rows] the amounts of its rows, added to 0 from
    the oldest row to the newest, give NaN, the unfiltered [summarize]
    answers with a status error.  Otherwise it returns a breakdown with
    one group for each category of [rows], the total of a group is that
    sum of the amounts of the rows of its category, and the total of the
    answer is the sum of these group totals in the order of the
    breakdown.  When addition on the amounts is exact, the total is the
    sum of the amounts of [rows]. *)
Theorem summarize_total_of_listed (d : db A)
  (start_date end_date key uid : string) :
  reachable d ->
  _authenticate d key = Ok uid ->
  exists rows,
    listing_of d uid start_date end_date rows
    /\ list_expenses d start_date end_date key
       = (Returned (Listing (List.length rows) rows), d)
    /\ (if some_sum_is_nan rows
        then
          exists r,
            summarize d start_date end_date key None = (Returned r, d)
            /\ sum_type_error r
        else
          exists summary,
            summarize d start_date end_date key None
            = (Returned
                 (Summary
                    (builtin_sum
                       (map (category_sum rows)
                          (map (@s_category A) summary)))
                    summary), d)
            /\ NoDup (map (@s_category A) summary)
            /\ (forall c, In c (map (@s_category A) summary)
                          <-> In c (map (@d_category A) rows))
            /\ forall g, In g summary ->
                 s_total_amount g = category_sum rows (s_category g))
    /\ (@ExactAmount A amt ->
        exists summary,
          summarize d start_date end_date key None
          = (Returned
               (Summary (builtin_sum (map (@d_amount A) rows)) summary),
             d)).
Proof.
  intros R G. pose proof (reachable_consistent d R) as C.
  pose proof (summarize_unfiltered d start_date end_date key uid None C G
                (or_introl eq_refl)) as H.
  cbv zeta in H.
  set (rows := map to_dict (select_expenses d uid start_date end_date))
    in *.
  exists rows. split; [now apply select_expenses_listing|].
  split; [now apply list_expenses_rows|].
  assert (totals : forall summary : list (summary_dict A),
            (forall g, In g summary ->
               s_total_amount g = category_sum rows (s_category g)
               /\ s_count g
                  = List.length (category_rows rows (s_category g))) ->
            map (@s_total_amount A) summary
            = map (category_sum rows) (map (@s_category A) summary)).
  { intros summary T. rewrite map_map. apply map_ext_in.
    intros g I. now apply T. }
  split.
  - destruct (some_sum_is_nan rows).
    + destruct H as [b H]. eexists. split; [exact H|].
      destruct b; [now left|now right].
    + destruct H as (summary & S & ND & Cov & T).
      exists summary. rewrite <- (totals summary T).
      repeat split; try assumption; try (now apply Cov).
      intros g I. now apply T.
  - intros exact.
    assert (N : some_sum_is_nan rows = false)
      by (apply existsb_none; intros c; apply never_nan).
    rewrite N in H. destruct H as (summary & S & ND & Cov & T).
    exists summary. rewrite S, (totals summary T).
    rewrite (exact_total rows _ ND); [reflexivity|].
    intros r I. apply Cov. now apply in_map.
Qed.

(** C10: a [category] argument that is the empty text is the same call
    as no [category] argument, and it groups all the rows that
    [list_expenses] returns for the key and the range: unless the sum of
    a category is NaN (then the answer is a status error), the breakdown
    has a group for the category of every listed row, the empty one
    included, that counts the listed rows of that category.  With a
    [category] argument that is not empty every group of the breakdown
    has that category.  So whatever the argument, a breakdown with a
    group for the empty category has a group for every category of the
    listing: the rows without a category are never returned on their
    own. *)
Theorem summarize_empty_category_is_no_filter (d : db A)
  (start_date end_date key uid : string) :
  reachable d ->
  _authenticate d key = Ok uid ->
  summarize d start_date end_date key (Some "")
  = summarize d start_date end_date key None
  /\ exists rows,
       listing_of d uid start_date end_date rows
       /\ list_expenses d start_date end_date key
          = (Returned (Listing (List.length rows) rows), d)
       /\ (if some_sum_is_nan rows
           then
             exists r,
               summarize d start_date end_date key (Some "")
               = (Returned r, d)
               /\ sum_type_error r
           else
             exists total summary,
               summarize d start_date end_date key (Some "")
               = (Returned (Summary total summary), d)
               /\ forall r, In r rows ->
                    exists g,
                      In g summary
                      /\ s_category g = d_category r
                      /\ s_count g
                         = List.length
                             (category_rows rows (d_category r)))
       /\ (forall c total summary,
             c <> "" ->
             summarize d start_date end_date key (Some c)
             = (Returned (Summary total summary), d) ->
             forall g, In g summary -> s_category g = c)
       /\ (forall category total summary,
             summarize d start_date end_date key category
             = (Returned (Summary total summary), d) ->
             In "" (map (@s_category A) summary) ->
             forall r, In r rows ->
               In (d_category r) (map (@s_category A) summary)).
Proof.
  intros R G. pose proof (reachable_consistent d R) as C.
  split; [reflexivity|].
  pose proof (fun category U =>
                summarize_unfiltered d start_date end_date key uid
                  category C G U) as H.
  pose proof (fun c N =>
                summarize_filtered d start_date end_date key uid c
                  C G N) as F.
  cbv zeta in H, F.
  set (rows := map to_dict (select_expenses d uid start_date end_date))
    in *.
  assert (only : forall c total summary,
            c <> "" ->
            summarize d start_date end_date key (Some c)
            = (Returned (Summary total summary), d) ->
            forall g, In g summary -> s_category g = c).
  { intros c total summary N S g I. specialize (F c N).
    destruct (some_sum_is_nan (category_rows rows c)).
    - destruct F as [b F]. rewrite F in S. discriminate.
    - destruct F as (summary' & S' & _ & Cov & _).
      rewrite S' in S. injection S as _ <-.
      assert (Ic : In (s_category g)
                     (map (@d_category A) (category_rows rows c))).
      { apply Cov. now apply in_map. }
      apply in_map_iff in Ic. destruct Ic as (r & E & Ir).
      apply filter_In in Ir. destruct Ir as [_ Ec].
      apply String.eqb_eq in Ec. congruence. }
  assert (all : forall category total summary,
            category = None \/ category = Some "" ->
            summarize d start_date end_date key category
            = (Returned (Summary total summary), d) ->
            forall r, In r rows ->
              exists g, In g summary /\ s_category g = d_category r
                        /\ s_count g
                           = List.length
                               (category_rows rows (d_category r))).
  { intros category total summary U S r I. specialize (H category U).
    destruct (some_sum_is_nan rows).
    - destruct H as [b H]. rewrite H in S. discriminate.
    - destruct H as (summary' & S' & _ & Cov & T).
      rewrite S' in S. injection S as _ <-.
      assert (Ig : In (d_category r) (map (@s_category A) summary')).
      { apply Cov. now apply in_map. }
      apply in_map_iff in Ig. destruct Ig as (g & E & Ig).
      exists g. split; [exact Ig|]. split; [exact E|].
      rewrite <- E. now apply T. }
  exists rows. split; [now apply select_expenses_listing|].
  split; [now apply list_expenses_rows|]. split; [|split].
  - pose proof (H (Some "") (or_intror eq_refl)) as H0.
    destruct (some_sum_is_nan rows).
    + destruct H0 as [b H0]. eexists. split; [exact H0|].
      destruct b; [now left|now right].
    + destruct H0 as (summary & S & _). eexists. exists summary.
      split; [exact S|].
      now apply (all (Some "") _ summary (or_intror eq_refl) S).
  - exact only.
  - intros category total summary S I r Ir.
    assert (U : category = None \/ category = Some "").
    { destruct category as [c|]; [|now left].
      destruct (String.eqb_spec c "") as [->|N]; [now right|].
      exfalso. apply in_map_iff in I. destruct I as (g & E & Ig).
      apply N. rewrite <- E. symmetry.
      now apply (only c total summary N S g Ig). }
    destruct (all category total summary U S r Ir) as (g & Ig & E & _).
    rewrite <- E. now apply in_map.
Qed.

(** X14: with a [category] argument that is not empty, [summarize]
    looks at the rows of that category among those [list_expenses]
    returns for the key and the range.  When there is none, the total is
    0 and the breakdown is empty; when their amounts, added to 0 from
    the oldest row to the newest, give NaN, the answer is the status
    error of the TypeError; otherwise the breakdown is the single group
    of the category with that sum and the number of those rows, and the
    total is 0 plus that sum. *)
Theorem summarize_one_category (d : db A)
  (start_date end_date api_key uid category : string) :
  reachable d ->
  _authenticate d api_key = Ok uid ->
  category <> "" ->
  exists rows,
    listing_of d uid start_date end_date rows
    /\ list_expenses d start_date end_date api_key
       = (Returned (Listing (List.length rows) rows), d)
    /\ summarize d start_date end_date api_key (Some category)
       = (Returned
            match category_rows rows category with
            | [] => Summary zero []
            | _ :: _ =>
                if is_nan (category_sum rows category)
                then
                  StatusError
                    "Error: unsupported operand type(s) for +: 'int' and 'NoneType'"
                else
                  Summary (add zero (category_sum rows category))
                    [{| s_category := category;
                        s_total_amount := category_sum rows category;
                        s_count :=
                          List.length (category_rows rows category) |}]
            end, d).
Proof.
  intros R G N. pose proof (reachable_consistent d R) as C.
  set (rows := map to_dict (select_expenses d uid start_date end_date)).
  exists rows. split; [now apply select_expenses_listing|].
  split; [now apply list_expenses_rows|].
  set (q := fun x : Expense.t A => String.eqb (Expense.category x) category).
  set (L := filter q (select_expenses d uid start_date end_date)).
  assert (F : select_summary d uid start_date end_date (Some category)
              = order_by_total_desc (group_by_category (rev L))).
  { unfold select_summary.
    rewrite (filter_ext _ (fun x => in_range uid start_date end_date x
                                    && q x)).
    - now rewrite scan_of_listing.
    - intros x. unfold summary_where, q.
      apply String.eqb_neq in N. now rewrite N. }
  assert (mine : category_rows rows category = map to_dict L).
  { unfold category_rows, rows, L, q. apply filter_map_swap. }
  assert (scan : filter q (rev (select_expenses d uid start_date end_date))
                 = rev L).
  { apply filter_rev. }
  assert (total : category_sum rows category
                  = fold_left add (map (@Expense.amount A) (rev L)) zero).
  { unfold rows. rewrite category_sum_scan. fold q. now rewrite scan. }
  assert (cat : forall x, In x (rev L) -> q x = true).
  { intros x I. apply in_rev in I. apply filter_In in I. tauto. }
  unfold summarize. rewrite G, F, mine, total.
  assert (len : List.length (map to_dict L) = List.length (rev L))
    by now rewrite length_map, length_rev.
  rewrite len. clearbody L.
  destruct L as [|x L']; [reflexivity|].
  change (map to_dict (x :: L')) with (to_dict x :: map to_dict L').
  cbv iota.
  set (S := rev (x :: L')) in *.
  assert (NE : map (@Expense.category A) S <> []).
  { unfold S. simpl. intros E. apply (f_equal (@List.length string)) in E.
    rewrite length_map, length_app in E. simpl in E. lia. }
  unfold group_by_category.
  rewrite (distinct_constant _ category NE).
  2:{ intros c I. apply in_map_iff in I. destruct I as (y & <- & I).
      apply String.eqb_eq. now apply cat. }
  simpl order_by. simpl map. unfold order_by_total_desc. simpl order_by.
  simpl rev. unfold group_of. fold q. rewrite (filter_all q S cat).
  unfold SUM. simpl.
  destruct (is_nan (fold_left add (map (@Expense.amount A) S) zero));
    reflexivity.
Qed.

(** X15: the breakdown of the unfiltered [summarize] groups the rows
    that [list_expenses] returns for the same key and range.  When the
    sum of some category of these rows is NaN the answer is the status
    error of the TypeError, with one of its two messages; otherwise the
    categories of the breakdown are pairwise distinct, they are exactly
    the categories of the listed rows, and every group counts the listed
    rows of its category, of which there is at least one. *)
Theorem summarize_groups_the_listed_rows (d : db A)
  (start_date end_date api_key uid : string) :
  reachable d ->
  _authenticate d api_key = Ok uid ->
  exists rows,
    listing_of d uid start_date end_date rows
    /\ list_expenses d start_date end_date api_key
       = (Returned (Listing (List.length rows) rows), d)
    /\ if some_sum_is_nan rows
       then
         exists r,
           summarize d start_date end_date api_key None = (Returned r, d)
           /\ sum_type_error r
       else
         exists total summary,
           summarize d start_date end_date api_key None
           = (Returned (Summary total summary), d)
           /\ NoDup (map (@s_category A) summary)
           /\ (forall c, In c (map (@s_category A) summary)
                         <-> In c (map (@d_category A) rows))
           /\ forall g, In g summary ->
                s_count g
                = List.length (category_rows rows (s_category g))
                /\ (0 < s_count g)%nat.
Proof.
  intros R G. pose proof (reachable_consistent d R) as C.
  pose proof (summarize_unfiltered d start_date end_date api_key uid None
                C G (or_introl eq_refl)) as H.
  cbv zeta in H.
  set (rows := map to_dict (select_expenses d uid start_date end_date))
    in *.
  exists rows. split; [now apply select_expenses_listing|].
  split; [now apply list_expenses_rows|].
  destruct (some_sum_is_nan rows).
  - destruct H as [b H]. eexists. split; [exact H|].
    destruct b; [now left|now right].
  - destruct H as (summary & S & ND & Cov & T).
    eexists. exists summary. split; [exact S|]. split; [exact ND|].
    split; [exact Cov|]. intros g I.
    destruct (T g I) as [_ Cn]. split; [exact Cn|]. rewrite Cn.
    assert (Ic : In (s_category g) (map (@d_category A) rows))
      by (apply Cov; now apply in_map).
    apply in_map_iff in Ic. destruct Ic as (r & E & Ir).
    assert (M : In r (category_rows rows (s_category g))).
    { apply filter_In. split; [exact Ir|]. now apply String.eqb_eq. }
    destruct (category_rows rows (s_category g)); [destruct M|simpl; lia].
Qed.

(** X16: when the comparison of amounts is total and transitive on the
    amounts that are not NaN, as it is for binary64 numbers, the
    breakdown [summarize] returns is in order of descending total, and
    no total in it is NaN, for every category argument; the only other
    answer of [summarize] to a key that authenticates is a status
    error. *)
Theorem summarize_largest_total_first (d : db A)
  (start_date end_date api_key uid : string) (category : option string) :
  (forall x y : A,
     is_nan x = false -> is_nan y = false ->
     leb x y = false -> leb y x = true) ->
  (forall x y z : A,
     is_nan x = false -> is_nan y = false -> is_nan z = false ->
     leb x y = true -> leb y z = true -> leb x z = true) ->
  _authenticate d api_key = Ok uid ->
  match fst (summarize d start_date end_date api_key category) with
  | Returned (Summary _ summary) =>
      StronglySorted
        (fun g h => leb (s_total_amount h) (s_total_amount g) = true)
        summary
      /\ Forall (fun g => is_nan (s_total_amount g) = false) summary
  | Returned (StatusError _) => True
  | _ => False
  end.
Proof.
  intros total trans G.
  pose proof (summarize_order d start_date end_date api_key uid category
                total trans G) as H.
  destruct (fst (summarize d start_date end_date api_key category))
    as [[m| | | | |t summary|]|e]; try exact H.
  destruct H as [H F]. split; [|exact F].
  apply StronglySorted_impl with (2 := H). now intros g h [L _].
Qed.

(** X19: groups with the same total come by descending category.  Under
    the same conditions on the comparison, of two groups of the
    breakdown the later one has a total that is not larger, and when the
    two totals compare as equal it has the smaller category (in the
    order of the bytes); so the order of the breakdown is fixed by the
    totals and the categories. *)
Theorem summarize_ties_by_descending_category (d : db A)
  (start_date end_date api_key uid : string) (category : option string) :
  (forall x y : A,
     is_nan x = false -> is_nan y = false ->
     leb x y = false -> leb y x = true) ->
  (forall x y z : A,
     is_nan x = false -> is_nan y = false -> is_nan z = false ->
     leb x y = true -> leb y z = true -> leb x z = true) ->
  _authenticate d api_key = Ok uid ->
  match fst (summarize d start_date end_date api_key category) with
  | Returned (Summary _ summary) =>
      StronglySorted
        (fun g h =>
           leb (s_total_amount h) (s_total_amount g) = true
           /\ (leb (s_total_amount g) (s_total_amount h) = true ->
               String.ltb (s_category h) (s_category g) = true))
        summary
  | Returned (StatusError _) => True
  | _ => False
  end.
Proof.
  intros total trans G.
  pose proof (summarize_order d start_date end_date api_key uid category
                total trans G) as H.
  destruct (fst (summarize d start_date end_date api_key category))
    as [[m| | | | |t summary|]|e]; try exact H.
  now destruct H.
Qed.

(** X17: with [start_date] greater than [end_date], [summarize] returns
    total 0 and an empty breakdown, for every category argument. *)
Theorem summarize_empty_range (d : db A)
  (start_date end_date api_key uid : string) (category : option string) :
  _authenticate d api_key = Ok uid ->
  String.ltb end_date start_date = true ->
  summarize d start_date end_date api_key category
  = (Returned (Summary zero []), d).
Proof.
  intros G L. unfold summarize, select_summary. rewrite G.
  rewrite filter_none; [reflexivity|].
  intros x _. unfold summary_where, in_range.
  rewrite (between_empty _ _ _ L). now rewrite andb_false_r.
Qed.

End Breakdown.

(** ** More sample runs *)

(** After Bob deleted his expense 3, his next expense gets the id 4. *)
Lemma add_expense_never_reuses_an_id_witness :
  4 = expenses_seq (run (host := sample_host) sample_db
                      [DeleteExpense 3 "bob-key"]) + 1
  /\ (forall x, In x (expenses sample_db) -> Expense.id x < 4)
  /\ (forall x,
        In x (expenses (run (host := sample_host) sample_db
                          [DeleteExpense 3 "bob-key"])) ->
        Expense.id x < 4).
Proof.
  apply (add_expense_never_reuses_an_id (host := sample_host) sample_db
           (snd (add_expense
                   (run (host := sample_host) sample_db
                      [DeleteExpense 3 "bob-key"])
                   "2024-02-01" 500 "Other" "bob-key" "" "late fee"))
           [DeleteExpense 3 "bob-key"]
           "2024-02-01" 500 "Other" "bob-key" "" "late fee" 4).
  - exact sample_db_reachable.
  - repeat constructor.
  - reflexivity.
Defined.

(** Alice books a negative zero: it is listed as [0.0]. *)
Lemma add_expense_then_listed_witness :
  is_nan neg_zero = false
  /\ exists rows,
       list_expenses
         (snd (add_expense float_start "2024-03-04" neg_zero "Other"
                 "alice-key" "" "refund"))
         "2024-03-01" "2024-03-31" "alice-key"
       = (Returned (Listing (List.length rows) rows),
          snd (add_expense float_start "2024-03-04" neg_zero "Other"
                 "alice-key" "" "refund"))
       /\ In {| d_id := 1; d_date := "2024-03-04"; d_amount := 0%float;
                d_category := "Other"; d_subcategory := "";
                d_note := "refund" |} rows.
Proof.
  exact (add_expense_then_listed float_start
           (snd (add_expense float_start "2024-03-04" neg_zero "Other"
                   "alice-key" "" "refund"))
           "2024-03-04" neg_zero "Other" "alice-key" "" "refund" 1
           "2024-03-01" "2024-03-31" eq_refl eq_refl eq_refl).
Defined.


(** Alice deletes her first expense, once. *)
Lemma delete_expense_removes_one_witness :
  exists d',
    delete_expense sample_db 1 "alice-key"
      = (Returned (Deleted "Expense 1 deleted."), d')
    /\ users d' = users sample_db
    /\ (forall y, In y (expenses d')
                  <-> In y (expenses sample_db) /\ y <> lunch)
    /\ Permutation (expenses sample_db) (lunch :: expenses d')
    /\ delete_expense d' 1 "alice-key"
       = (Returned (StatusError "Expense not found or not yours."), d').
Proof.
  apply (delete_expense_removes_one (host := sample_host) sample_db lunch
           "alice-key").
  - exact sample_db_reachable.
  - simpl. now left.
  - reflexivity.
Defined.

(** Bob books an expense and takes it back. *)
Lemma add_expense_then_delete_witness :
  exists d2,
    delete_expense (snd (invoke (host := sample_host) sample_db bob_books))
      4 "bob-key"
    = (Returned (Deleted "Expense 4 deleted."), d2)
    /\ users d2 = users sample_db
    /\ expenses d2 = expenses sample_db
    /\ expenses_seq d2 = expenses_seq sample_db + 1.
Proof.
  apply (add_expense_then_delete (host := sample_host) sample_db
           (snd (invoke (host := sample_host) sample_db bob_books))
           "2024-02-01" 500 "Other" "bob-key" "" "late fee" 4).
  - exact sample_db_reachable.
  - reflexivity.
Defined.

(** What Bob books does not show in Alice's answers. *)
Lemma other_accounts_do_not_interfere_witness :
  fst (list_expenses (snd (invoke (host := sample_host) sample_db bob_books))
         "2024-01-01" "2024-12-31" "alice-key")
  = fst (list_expenses sample_db "2024-01-01" "2024-12-31" "alice-key")
  /\ fst (summarize (snd (invoke (host := sample_host) sample_db bob_books))
            "2024-01-01" "2024-12-31" "alice-key" (Some "Other"))
     = fst (summarize sample_db "2024-01-01" "2024-12-31" "alice-key"
              (Some "Other")).
Proof.
  apply (other_accounts_do_not_interfere (host := sample_host) sample_db
           bob_books "bob-key" "user_b0b0000000000002"
           "alice-key" "user_a11ce00000000001").
  - reflexivity.
  - reflexivity.
  - reflexivity.
  - discriminate.
Defined.

(** Carol registers; her key works, and so do Alice's and Bob's. *)
Lemma register_user_then_authenticate_witness :
  _authenticate
    (snd (register_user (host := sample_host) sample_db carol_draws
            "carol@example.com" "Carol" "singing"))
    "carol-key" = Ok "user_ca401000000000003"
  /\ ~ In "user_ca401000000000003" (map User.user_id (users sample_db))
  /\ ~ In "carol-key" (map User.api_key (users sample_db))
  /\ forall key0 uid0,
       _authenticate sample_db key0 = Ok uid0 ->
       _authenticate
         (snd (register_user (host := sample_host) sample_db carol_draws
                 "carol@example.com" "Carol" "singing"))
         key0 = Ok uid0.
Proof.
  apply (register_user_then_authenticate (host := sample_host) sample_db
           _ carol_draws "carol@example.com" "Carol" "singing"
           "carol-key" "user_ca401000000000003" "Carol"
           "carol@example.com").
  - exact sample_db_reachable.
  - simpl. discriminate.
  - reflexivity.
Defined.

(** Alice rotates her key; Bob's key and row are as before. *)
Lemma regenerate_api_key_keeps_other_accounts_witness :
  (forall key0 uid0,
     _authenticate sample_db key0 = Ok uid0 ->
     uid0 <> "user_a11ce00000000001" ->
     _authenticate
       (snd (regenerate_api_key (host := sample_host) sample_db
               rotation_draws "alice@example.com" "wonderland"))
       key0 = Ok uid0)
  /\ (forall u, In u (users sample_db) ->
        User.user_id u <> "user_a11ce00000000001" ->
        In u (users
                (snd (regenerate_api_key (host := sample_host) sample_db
                        rotation_draws "alice@example.com" "wonderland"))))
  /\ (forall u, In u (users sample_db) ->
        User.user_id u = "user_a11ce00000000001" ->
        In {| User.user_id := User.user_id u;
              User.api_key := "alice-key-2";
              User.email := User.email u; User.name := User.name u;
              User.password_hash := User.password_hash u;
              User.salt := User.salt u;
              User.registered_at := User.registered_at u;
              User.api_key_regen_at := Some "2024-02-01T09:00:00" |}
           (users
              (snd (regenerate_api_key (host := sample_host) sample_db
                      rotation_draws "alice@example.com" "wonderland")))).
Proof.
  apply (regenerate_api_key_keeps_other_accounts (host := sample_host)
           sample_db _ rotation_draws "alice@example.com" "wonderland"
           "alice-key-2" "user_a11ce00000000001").
  - exact sample_db_reachable.
  - reflexivity.
Defined.

(** Alice's rotation was granted on her password. *)
Lemma regenerate_api_key_checks_password_witness :
  exists u,
    In u (users sample_db)
    /\ User.user_id u = "user_a11ce00000000001"
    /\ Text.LOWER (User.email u) = Text.LOWER "ALICE@example.com"
    /\ _hash_password (Host := sample_host) "wonderland" (User.salt u)
       = User.password_hash u.
Proof.
  apply (regenerate_api_key_checks_password (host := sample_host) sample_db
           (snd (regenerate_api_key (host := sample_host) sample_db
                   rotation_draws "ALICE@example.com" "wonderland"))
           rotation_draws "ALICE@example.com" "wonderland"
           "alice-key-2" "user_a11ce00000000001").
  reflexivity.
Defined.

(** Alice registers and rotates her key; a wrong password is refused. *)
Lemma register_user_then_regenerate_witness :
  (exists d2,
     regenerate_api_key (host := sample_host)
       (snd (register_user (host := sample_host) (A := Z) init_db
               alice_draws "Alice@Example.com" "Alice" "wonderland"))
       rotation_draws "Alice@Example.com" "wonderland"
     = (Returned (Regenerated "alice-key-2" "user_a11ce00000000001"), d2))
  /\ regenerate_api_key (host := sample_host)
       (snd (register_user (host := sample_host) (A := Z) init_db
               alice_draws "Alice@Example.com" "Alice" "wonderland"))
       rotation_draws "Alice@Example.com" "looking-glass"
     = (Returned (StatusError "Incorrect password."),
        snd (register_user (host := sample_host) (A := Z) init_db
               alice_draws "Alice@Example.com" "Alice" "wonderland")).
Proof.
  destruct (register_user_then_regenerate (host := sample_host) (A := Z)
              init_db
              (snd (register_user (host := sample_host) (A := Z) init_db
                      alice_draws "Alice@Example.com" "Alice" "wonderland"))
              alice_draws rotation_draws
              "Alice@Example.com" "Alice" "wonderland"
              "alice-key" "user_a11ce00000000001" "Alice"
              "alice@example.com") as [granted refused].
  - reflexivity.
  - reflexivity.
  - intros u [].
  - split; [exact granted|]. apply refused. simpl. discriminate.
Defined.

(** The account registered with a capital letter outside ASCII cannot
    rotate its key with that email. *)
Lemma register_user_then_email_not_found_witness :
  regenerate_api_key (host := sample_host) capital_db rotation_draws
    capital_email "wonderland"
  = (Returned (StatusError "Email not found."), capital_db).
Proof.
  apply (register_user_then_email_not_found (host := sample_host)
           init_db capital_db alice_draws rotation_draws capital_email
           "Alice" "wonderland" "alice-key" "user_a11ce00000000001"
           "Alice" small_email "wonderland").
  - reflexivity.
  - simpl. discriminate.
Defined.

(** The constraints hold in [sample_db]. *)
Lemma reachable_tables_keep_their_constraints_witness :
  NoDup (map User.user_id (users sample_db))
  /\ NoDup (map User.api_key (users sample_db))
  /\ NoDup (map User.email (users sample_db))
  /\ (forall u, In u (users sample_db) -> User.api_key u <> "")
  /\ NoDup (map (@Expense.id Z) (expenses sample_db))
  /\ (forall x, In x (expenses sample_db) ->
        1 <= Expense.id x <= expenses_seq sample_db)
  /\ expenses_seq sample_db <= max_rowid.
Proof.
  exact (reachable_tables_keep_their_constraints (host := sample_host)
           sample_db sample_db_reachable).
Defined.

(** Alice's three binary64 amounts: the listing, the two groups and
    their sums. *)
Lemma summarize_total_of_listed_witness :
  exists rows summary,
    list_expenses float_db "2024-01-01" "2024-01-31" "alice-key"
      = (Returned (Listing (List.length rows) rows), float_db)
    /\ map (@d_amount float) rows = [0.3; 0.2; 0.1]%float
    /\ summarize float_db "2024-01-01" "2024-01-31" "alice-key" None
       = (Returned
            (Summary
               (builtin_sum
                  (map (category_sum rows)
                     (map (@s_category float) summary)))
               summary), float_db)
    /\ map (@s_category float) summary = ["Food & Dining"; "Shopping"]
    /\ map (category_sum rows) (map (@s_category float) summary)
       = [0.30000000000000004; 0.3]%float
    /\ forall g, In g summary ->
         s_total_amount g = category_sum rows (s_category g).
Proof.
  destruct (summarize_total_of_listed (host := sample_host) float_db
              "2024-01-01" "2024-01-31" "alice-key"
              "user_a11ce00000000001" float_db_reachable eq_refl)
    as (rows & _ & L & H & _).
  pose proof L as L'. vm_compute in L'. injection L' as _ E. subst rows.
  match type of H with
  | if ?b then _ else _ => change b with false in H
  end.
  destruct H as (summary & S & _ & _ & T).
  pose proof S as S'. vm_compute in S'. injection S' as _ E. subst summary.
  eexists. eexists.
  split; [exact L|]. split; [reflexivity|]. split; [exact S|].
  split; [reflexivity|]. split; [reflexivity|exact T].
Defined.

(** Alice's expenses without a category are summarized together with the
    others, whether the [category] argument is the empty text or
    absent. *)
Lemma summarize_empty_category_is_no_filter_witness :
  summarize blank_db "2024-03-01" "2024-03-31" "alice-key" (Some "")
  = summarize blank_db "2024-03-01" "2024-03-31" "alice-key" None
  /\ exists rows total summary,
       list_expenses blank_db "2024-03-01" "2024-03-31" "alice-key"
         = (Returned (Listing (List.length rows) rows), blank_db)
       /\ map (@d_category float) rows = [""; "Travel"; ""]
       /\ summarize blank_db "2024-03-01" "2024-03-31" "alice-key"
            (Some "")
          = (Returned (Summary total summary), blank_db)
       /\ (forall r, In r rows ->
             exists g,
               In g summary
               /\ s_category g = d_category r
               /\ s_count g
                  = List.length (category_rows rows (d_category r)))
       /\ map (@s_category float) summary = [""; "Travel"]
       /\ map (@s_count float) summary = [2; 1]%nat.
Proof.
  destruct (summarize_empty_category_is_no_filter (host := sample_host)
              blank_db "2024-03-01" "2024-03-31" "alice-key"
              "user_a11ce00000000001" blank_db_reachable eq_refl)
    as (same & rows & _ & L & H & _ & _).
  split; [exact same|].
  pose proof L as L'. vm_compute in L'. injection L' as _ E. subst rows.
  match type of H with
  | if ?b then _ else _ => change b with false in H
  end.
  destruct H as (total & summary & S & Cov).
  pose proof S as S'. vm_compute in S'. injection S' as E1 E2.
  subst total summary.
  eexists. eexists. eexists.
  split; [exact L|]. split; [reflexivity|]. split; [exact S|].
  split; [exact Cov|]. split; reflexivity.
Defined.

(** Alice's summary for the category whose amounts add up to NaN, for
    another category, and for a category she never used. *)
Lemma summarize_one_category_witness :
  summarize infinite_db "2024-04-01" "2024-04-30" "alice-key"
    (Some "Other")
  = (Returned (StatusError
       "Error: unsupported operand type(s) for +: 'int' and 'NoneType'"),
     infinite_db)
  /\ summarize infinite_db "2024-04-01" "2024-04-30" "alice-key"
       (Some "Travel")
     = (Returned (Summary 5%float
          [{| s_category := "Travel"; s_total_amount := 5%float;
              s_count := 1 |}]), infinite_db)
  /\ summarize infinite_db "2024-04-01" "2024-04-30" "alice-key"
       (Some "Food & Dining")
     = (Returned (Summary 0%float []), infinite_db).
Proof.
  assert (other : "Other" <> "") by discriminate.
  assert (travel : "Travel" <> "") by discriminate.
  assert (food : "Food & Dining" <> "") by discriminate.
  destruct (summarize_one_category (host := sample_host) infinite_db
              "2024-04-01" "2024-04-30" "alice-key"
              "user_a11ce00000000001" "Other" infinite_db_reachable
              eq_refl other) as (rows1 & _ & L1 & S1).
  destruct (summarize_one_category (host := sample_host) infinite_db
              "2024-04-01" "2024-04-30" "alice-key"
              "user_a11ce00000000001" "Travel" infinite_db_reachable
              eq_refl travel) as (rows2 & _ & L2 & S2).
  destruct (summarize_one_category (host := sample_host) infinite_db
              "2024-04-01" "2024-04-30" "alice-key"
              "user_a11ce00000000001" "Food & Dining"
              infinite_db_reachable eq_refl food)
    as (rows3 & _ & L3 & S3).
  vm_compute in L1, L2, L3.
  injection L1 as _ E1. injection L2 as _ E2. injection L3 as _ E3.
  subst rows1 rows2 rows3.
  split; [exact S1|]. split; [exact S2|exact S3].
Defined.

(** The groups of Alice's three amounts; and the status error for the
    ledger with a category whose sum is NaN. *)
Lemma summarize_groups_the_listed_rows_witness :
  (exists rows total summary,
     list_expenses float_db "2024-01-01" "2024-01-31" "alice-key"
       = (Returned (Listing (List.length rows) rows), float_db)
     /\ summarize float_db "2024-01-01" "2024-01-31" "alice-key" None
        = (Returned (Summary total summary), float_db)
     /\ NoDup (map (@s_category float) summary)
     /\ (forall c, In c (map (@s_category float) summary)
                   <-> In c (map (@d_category float) rows))
     /\ (forall g, In g summary ->
           s_count g = List.length (category_rows rows (s_category g))
           /\ (0 < s_count g)%nat)
     /\ map (@s_count float) summary = [2; 1]%nat)
  /\ summarize infinite_db "2024-04-01" "2024-04-30" "alice-key" None
     = (Returned (StatusError
          "Error: unsupported operand type(s) for +: 'float' and 'NoneType'"),
        infinite_db).
Proof.
  destruct (summarize_groups_the_listed_rows (host := sample_host)
              float_db "2024-01-01" "2024-01-31" "alice-key"
              "user_a11ce00000000001" float_db_reachable eq_refl)
    as (rows & _ & L & H).
  destruct (summarize_groups_the_listed_rows (host := sample_host)
              infinite_db "2024-04-01" "2024-04-30" "alice-key"
              "user_a11ce00000000001" infinite_db_reachable eq_refl)
    as (rows' & _ & L' & H').
  pose proof L as E. vm_compute in E. injection E as _ E. subst rows.
  vm_compute in L'. injection L' as _ E'. subst rows'.
  match type of H with
  | if ?b then _ else _ => change b with false in H
  end.
  match type of H' with
  | if ?b then _ else _ => change b with true in H'
  end.
  destruct H as (total & summary & S & ND & Cov & Cn).
  pose proof S as S'. vm_compute in S'. injection S' as E1 E2.
  subst total summary.
  split.
  - eexists. eexists. eexists.
    split; [exact L|]. split; [exact S|]. split; [exact ND|].
    split; [exact Cov|]. split; [exact Cn|reflexivity].
  - destruct H' as (r & S' & _).
    pose proof S' as E. vm_compute in E. injection E as E. subst r.
    exact S'.
Defined.

(** Alice's two groups, the larger total first. *)
Lemma summarize_largest_total_first_witness :
  exists total summary,
    summarize float_db "2024-01-01" "2024-01-31" "alice-key" None
      = (Returned (Summary total summary), float_db)
    /\ map (@s_total_amount float) summary
       = [0.30000000000000004; 0.3]%float
    /\ StronglySorted
         (fun g h => leb (s_total_amount h) (s_total_amount g) = true)
         summary
    /\ Forall (fun g => is_nan (s_total_amount g) = false) summary.
Proof.
  pose proof (summarize_largest_total_first float_db "2024-01-01"
                "2024-01-31" "alice-key" "user_a11ce00000000001" None
                float_leb_total
                (fun x y z _ _ _ => float_leb_trans x y z) eq_refl) as H.
  eexists. eexists. split; [vm_compute; reflexivity|].
  split; [reflexivity|exact H].
Defined.

(** Alice's two categories with the same total: "Travel" comes before
    "Food & Dining". *)
Lemma summarize_ties_by_descending_category_witness :
  exists total summary,
    summarize tie_db "2024-05-01" "2024-05-31" "alice-key" None
      = (Returned (Summary total summary), tie_db)
    /\ map (@s_category float) summary
       = ["Travel"; "Food & Dining"; "Other"]
    /\ map (@s_total_amount float) summary = [2.5; 2.5; 1]%float
    /\ StronglySorted
         (fun g h =>
            leb (s_total_amount h) (s_total_amount g) = true
            /\ (leb (s_total_amount g) (s_total_amount h) = true ->
                String.ltb (s_category h) (s_category g) = true))
         summary.
Proof.
  pose proof (summarize_ties_by_descending_category tie_db "2024-05-01"
                "2024-05-31" "alice-key" "user_a11ce00000000001" None
                float_leb_total
                (fun x y z _ _ _ => float_leb_trans x y z) eq_refl) as H.
  eexists. eexists. split; [vm_compute; reflexivity|].
  split; [reflexivity|]. split; [reflexivity|exact H].
Defined.

Lemma summarize_empty_range_witness :
  summarize sample_db "2024-02-01" "2024-01-01" "alice-key" None
  = (Returned (Summary 0 []), sample_db).
Proof.
  exact (summarize_empty_range sample_db "2024-02-01" "2024-01-01"
           "alice-key" "user_a11ce00000000001" None eq_refl eq_refl).
Defined.
